(** * Objective-C name handling of the protobuf compiler

    A shallow embedding of
    [src/google/protobuf/compiler/objectivec/names.cc]: the camel-case
    conversion [UnderscoresToCamelCase], the identifier sanitizer
    [SanitizeNameForObjC], the class-prefix resolution [FileClassPrefix]
    over the process-wide [PrefixModeStorage], and the prefix validation
    [ValidateObjCClassPrefix] / [ValidateObjCClassPrefixes].

    [std::string] is [string] (a list of 8-bit [ascii] characters),
    [std::unordered_set<std::string>] is [gset string], and
    [std::map<std::string, std::string>] is an association list kept in
    key order, because the validator iterates over it in that order. *)

From Stdlib Require Import NArith Ascii String.
From stdpp Require Import base gmap strings list.

(** ** Characters: absl/strings/ascii.h *)

Module Char.

Definition code (c : ascii) : N := N_of_ascii c.

Definition between (lo hi : N) (c : ascii) : bool :=
  ((lo <=? code c) && (code c <=? hi))%N.

(** [absl::ascii_isdigit]: '0' .. '9'. *)
Definition ascii_isdigit : ascii -> bool := between 48 57.

(** [absl::ascii_islower]: 'a' .. 'z'. *)
Definition ascii_islower : ascii -> bool := between 97 122.

(** [absl::ascii_isupper]: 'A' .. 'Z'.  [isupper] of <cctype>, used by
    [IsReservedCIdentifier], is the same predicate in the "C" locale. *)
Definition ascii_isupper : ascii -> bool := between 65 90.

(** [absl::ascii_tolower] and [absl::ascii_toupper] move the ASCII
    letters only. *)
Definition ascii_tolower (c : ascii) : ascii :=
  if ascii_isupper c then ascii_of_N (code c + 32) else c.

Definition ascii_toupper (c : ascii) : ascii :=
  if ascii_islower c then ascii_of_N (code c - 32) else c.

(** [absl::ascii_isspace]: space, \t, \n, \v, \f, \r. *)
Definition ascii_isspace (c : ascii) : bool :=
  (code c =? 32)%N || between 9 13 c.

End Char.

(** ** Strings: the [std::string] and absl operations the file uses *)

Module Str.

(** [s[i]]; [operator[]] at [i = s.size()] yields the NUL character, and
    the code never indexes further. *)
Definition at_ (s : string) (i : nat) : ascii :=
  default Ascii.zero (String.get i s).

(** [s += c]. *)
Definition push_back (s : string) (c : ascii) : string :=
  s +:+ String c EmptyString.

Definition empty (s : string) : bool :=
  match s with EmptyString => true | String _ _ => false end.

(** The one-character string holding a double quote. *)
Definition dquote : string := String "034" EmptyString.

(** [absl::StartsWith(text, prefix)]. *)
Definition StartsWith (text prefix : string) : bool := String.prefix prefix text.

Fixpoint map (f : ascii -> ascii) (s : string) : string :=
  match s with
  | EmptyString => EmptyString
  | String c s' => String (f c) (map f s')
  end.

Fixpoint fold {A : Type} (f : A -> ascii -> A) (s : string) (a : A) : A :=
  match s with
  | EmptyString => a
  | String c s' => fold f s' (f a c)
  end.

End Str.

(** ** UnderscoresToCamelCase *)

Definition MakeWordsMap (words : list string) : gset string := list_to_set words.

Definition kUpperSegmentsList : list string := ["url"; "http"; "https"].
Definition kUpperSegments : gset string := MakeWordsMap kUpperSegmentsList.

(** The locals of the first loop of [UnderscoresToCamelCase]. *)
Record Scan := mkScan {
  values : list string;
  current : string;
  last_char_was_number : bool;
  last_char_was_lower : bool;
  last_char_was_upper : bool
}.

Definition scan_init : Scan := mkScan [] "" false false false.

(** One iteration of the first loop, on the character [c]. *)
Definition scan_char (st : Scan) (c : ascii) : Scan :=
  if Char.ascii_isdigit c then
    let st' := if negb (last_char_was_number st)
               then mkScan (values st ++ [current st]) "" false false false
               else st in
    mkScan (values st') (Str.push_back (current st') c) true false false
  else if Char.ascii_islower c then
    let st' := if negb (last_char_was_lower st) && negb (last_char_was_upper st)
               then mkScan (values st ++ [current st]) "" false false false
               else st in
    mkScan (values st') (Str.push_back (current st') c) false true false
  else if Char.ascii_isupper c then
    let st' := if negb (last_char_was_upper st)
               then mkScan (values st ++ [current st]) "" false false false
               else st in
    mkScan (values st') (Str.push_back (current st') (Char.ascii_tolower c))
           false false true
  else
    mkScan (values st) (current st) false false false.

(** The vector [values] after the first loop and the final [push_back]. *)
Definition segments (input : string) : list string :=
  let st := Str.fold scan_char input scan_init in
  values st ++ [current st].

(** The inner loop over [value]: the first character, or every character
    of an acronym, is upper-cased. *)
Definition capitalize (all_upper : bool) (value : string) : string :=
  match value with
  | EmptyString => EmptyString
  | String c rest =>
      String (Char.ascii_toupper c)
             (if all_upper then Str.map Char.ascii_toupper rest else rest)
  end.

(** One iteration of the second loop; the state is [result] and
    [first_segment_forces_upper]. *)
Definition join_value (acc : string * bool) (value : string) : string * bool :=
  let '(result, first_segment_forces_upper) := acc in
  let all_upper := bool_decide (value ∈ kUpperSegments) in
  (result +:+ capitalize all_upper value,
   if all_upper && Str.empty result then true else first_segment_forces_upper).

(** The second loop and the final lowering of the first character. *)
Definition join_segments (vals : list string) (first_capitalized : bool) : string :=
  let '(result, first_segment_forces_upper) := fold_left join_value vals ("", false) in
  match result with
  | String c rest =>
      if negb first_capitalized && negb first_segment_forces_upper
      then String (Char.ascii_tolower c) rest
      else result
  | EmptyString => result
  end.

Definition UnderscoresToCamelCase (input : string) (first_capitalized : bool) : string :=
  join_segments (segments input) first_capitalized.

(** ** SanitizeNameForObjC *)

Definition kReservedWordList : list string := [
  (* Objective C "keywords" that aren't in C *)
  "id"; "_cmd"; "super"; "in"; "out"; "inout"; "bycopy"; "byref"; "oneway";
  "self"; "instancetype"; "nullable"; "nonnull"; "nil"; "Nil";
  "YES"; "NO"; "weak";
  (* C/C++ keywords (Incl C++ 0x11) *)
  "and"; "and_eq"; "alignas"; "alignof"; "asm"; "auto"; "bitand"; "bitor";
  "bool"; "break"; "case"; "catch"; "char"; "char16_t"; "char32_t"; "class";
  "compl"; "const"; "constexpr"; "const_cast"; "continue"; "decltype";
  "default"; "delete"; "double"; "dynamic_cast"; "else"; "enum"; "explicit";
  "export"; "extern "; "false"; "float"; "for"; "friend"; "goto"; "if";
  "inline"; "int"; "long"; "mutable"; "namespace"; "new"; "noexcept"; "not";
  "not_eq"; "nullptr"; "operator"; "or"; "or_eq"; "private"; "protected";
  "public"; "register"; "reinterpret_cast"; "return"; "short"; "signed";
  "sizeof"; "static"; "static_assert"; "static_cast"; "struct"; "switch";
  "template"; "this"; "thread_local"; "throw"; "true"; "try"; "typedef";
  "typeid"; "typename"; "union"; "unsigned"; "using"; "virtual"; "void";
  "volatile"; "wchar_t"; "while"; "xor"; "xor_eq";
  (* C99 keywords *)
  "restrict";
  (* GCC/Clang extension *)
  "typeof";
  (* Not a keyword, but will break you *)
  "NULL";
  (* C88+ specs call for these to be macros *)
  "stdin"; "stdout"; "stderr";
  (* Objective-C Runtime typedefs *)
  "Category"; "Ivar"; "Method"; "Protocol";
  (* GPBMessage Methods *)
  "clear"; "data"; "delimitedData"; "descriptor"; "extensionRegistry";
  "extensionsCurrentlySet"; "initialized"; "isInitialized"; "serializedSize";
  "sortedExtensionsInUse"; "unknownFields";
  (* MacTypes.h names *)
  "Fixed"; "Fract"; "Size"; "LogicalAddress"; "PhysicalAddress"; "ByteCount";
  "ByteOffset"; "Duration"; "AbsoluteTime"; "OptionBits"; "ItemCount";
  "PBVersion"; "ScriptCode"; "LangCode"; "RegionCode"; "OSType";
  "ProcessSerialNumber"; "Point"; "Rect"; "FixedPoint"; "FixedRect"; "Style";
  "StyleParameter"; "StyleField"; "TimeScale"; "TimeBase"; "TimeRecord"
].

Definition kReservedWords : gset string := MakeWordsMap kReservedWordList.

(** True when [input] starts with [__] or [_[A-Z]] and is longer than two
    characters. *)
Definition IsReservedCIdentifier (input : string) : bool :=
  if bool_decide (2 < String.length input) then
    if Ascii.eqb (Str.at_ input 0) "_" then
      Char.ascii_isupper (Str.at_ input 1) || Ascii.eqb (Str.at_ input 1) "_"
    else false
  else false.

(** The local [sanitized] of [SanitizeNameForObjC] after the prefix has
    been added where the code judges it missing. *)
Definition sanitized (prefix input : string) : string :=
  if Str.StartsWith input prefix then
    if bool_decide (String.length input = String.length prefix)
       || negb (Char.ascii_isupper (Str.at_ input (String.length prefix)))
    then prefix +:+ input
    else input
  else prefix +:+ input.

Section Sanitizer.

(** The table [kNSObjectMethodsList] comes from the generated header
    nsobject_methods.h, which is not part of the sources: the sanitizer
    is stated for an arbitrary table. *)
Variable kNSObjectMethodsList : list string.

Definition kNSObjectMethods : gset string := MakeWordsMap kNSObjectMethodsList.

(** The test that decides whether the extension is appended. *)
Definition needs_extension (name : string) : bool :=
  IsReservedCIdentifier name
  || bool_decide (name ∈ kReservedWords)
  || bool_decide (name ∈ kNSObjectMethods).

(** The result paired with what the code stores through
    [out_suffix_added] when the caller passes a non-null pointer. *)
Definition SanitizeNameForObjC (prefix input extension : string) : string * string :=
  let name := sanitized prefix input in
  if needs_extension name
  then (name +:+ extension, extension)
  else (name, "").

End Sanitizer.

(** ** More string helpers: absl string views and splitting *)

Module StrView.

(** [s.substr(n)]: what is left after the first [n] characters. *)
Fixpoint drop (n : nat) (s : string) : string :=
  match n, s with
  | O, _ => s
  | S n', String _ s' => drop n' s'
  | S _, EmptyString => EmptyString
  end.

(** [s.find(c)]: the offset of the first [c], [None] for [npos]. *)
Fixpoint find (c : ascii) (s : string) : option nat :=
  match s with
  | EmptyString => None
  | String d s' => if Ascii.eqb d c then Some O else S <$> find c s'
  end.

Fixpoint strip_leading (s : string) : string :=
  match s with
  | String c s' => if Char.ascii_isspace c then strip_leading s' else s
  | EmptyString => EmptyString
  end.

Fixpoint strip_trailing (s : string) : string :=
  match s with
  | String c s' =>
      let r := strip_trailing s' in
      if Str.empty r && Char.ascii_isspace c then EmptyString else String c r
  | EmptyString => EmptyString
  end.

(** [absl::StripAsciiWhitespace]. *)
Definition StripAsciiWhitespace (s : string) : string :=
  strip_trailing (strip_leading s).

(** [absl::StripPrefix(text, prefix)]. *)
Definition StripPrefix (text prefix : string) : string :=
  if Str.StartsWith text prefix then drop (String.length prefix) text else text.

(** [MaybeUnQuote]: one layer of matching single or double quotes is
    removed. *)
Definition MaybeUnQuote (input : string) : string :=
  let n := String.length input in
  if bool_decide (2 <= n)
     && (Ascii.eqb (Str.at_ input 0) "'" || Ascii.eqb (Str.at_ input 0) "034")
     && Ascii.eqb (Str.at_ input (n - 1)) (Str.at_ input 0)
  then String.substring 1 (n - 2) input
  else input.

Fixpoint split_on (sep : ascii) (s : string) (piece : string) : list string :=
  match s with
  | EmptyString => [piece]
  | String c s' =>
      if Ascii.eqb c sep then piece :: split_on sep s' ""
      else split_on sep s' (Str.push_back piece c)
  end.

(** [absl::StrSplit(s, sep, absl::SkipEmpty())] for a one-character
    separator. *)
Definition StrSplit_SkipEmpty (s : string) (sep : ascii) : list string :=
  filter (λ piece : string, piece ≠ "") (split_on sep s "").

End StrView.

(** ** std::map<std::string, std::string> *)

Module StdMap.

(** The entries in increasing key order, as iteration visits them. *)
Abbreviation t := (list (string * string)).

(** [m[k] = v]. *)
Fixpoint assign (k v : string) (m : t) : t :=
  match m with
  | [] => [(k, v)]
  | (k', v') :: m' =>
      match String.compare k k' with
      | Lt => (k, v) :: m
      | Eq => (k, v) :: m'
      | Gt => (k', v') :: assign k v m'
      end
  end.

(** [m.find(k)], [None] for [m.end()]. *)
Fixpoint find (k : string) (m : t) : option string :=
  match m with
  | [] => None
  | (k', v') :: m' => if String.eqb k k' then Some v' else find k m'
  end.

Definition empty (m : t) : bool :=
  match m with [] => true | _ :: _ => false end.

End StdMap.

(** ** Descriptors *)

(** The part of [FileOptions] the code reads: the optional field
    [objc_class_prefix]. *)
Record FileOptions := mkFileOptions {
  objc_class_prefix_field : option string
}.

Definition has_objc_class_prefix (o : FileOptions) : bool :=
  bool_decide (is_Some (objc_class_prefix_field o)).

(** The accessor of an unset string field returns the empty default. *)
Definition objc_class_prefix (o : FileOptions) : string :=
  default "" (objc_class_prefix_field o).

Record FileDescriptor := mkFileDescriptor {
  name : string;
  package : string;
  options : FileOptions
}.

Definition no_package_prefix : string := "no_package:".

(** Files without a package are looked up as "no_package:PATH". *)
Definition lookup_key (file : FileDescriptor) : string :=
  if Str.empty (package file) then no_package_prefix +:+ name file else package file.

(** ** Reading the configuration files *)

(** What the run leaves behind outside its own data: the files handed to
    [ParseSimpleFile] and the lines written to [std::cerr], oldest
    first. *)
Inductive Event :=
| ReadFile (path : string)
| Cerr (line : string).

(** Modelled from the spec: [ParseSimpleFile] and the [LineConsumer]
    interface are declared in line_consumer.h, which is not part of the
    sources.  The loader skips comments and blank lines and hands every
    remaining line to the consumer; a line the consumer rejects fails the
    whole file.  [read_lines path] is [None] for a file that cannot be
    opened and the lines handed to the consumer otherwise; [open_error]
    and [line_error] are the texts the loader reports. *)
Record FileSystem := mkFileSystem {
  read_lines : string -> option (list string);
  open_error : string -> string;
  line_error : string -> nat -> string -> string
}.

(** [LineConsumer::ConsumeLine] over the object [T] the consumer fills:
    the object afterwards, and [inr] of [out_error] when it returns
    false. *)
Definition LineConsumer (T : Type) : Type := string -> T -> T * (unit + string).

Fixpoint consume_lines {T : Type} (path : string) (line_error : string -> nat -> string -> string)
    (consumer : LineConsumer T) (lines : list string) (line_no : nat) (target : T)
    : T * (unit + string) :=
  match lines with
  | [] => (target, inl tt)
  | line :: rest =>
      match consumer line target with
      | (target', inl _) => consume_lines path line_error consumer rest (S line_no) target'
      | (target', inr err) => (target', inr (line_error path line_no err))
      end
  end.

Definition ParseSimpleFile {T : Type} (fs : FileSystem) (path : string)
    (consumer : LineConsumer T) (target : T) : T * (unit + string) :=
  match read_lines fs path with
  | None => (target, inr (open_error fs path))
  | Some lines => consume_lines path (line_error fs) consumer lines 1 target
  end.

(** [SimpleLineCollector::ConsumeLine]. *)
Definition SimpleLineCollector : LineConsumer (gset string) :=
  λ line set_, ({[ line ]} ∪ set_, inl tt).

(** [PackageToPrefixesCollector::ConsumeLine]. *)
Definition PackageToPrefixesCollector (usage_ : string) : LineConsumer StdMap.t :=
  λ line prefix_map_,
    match StrView.find "=" line with
    | None =>
        (prefix_map_,
         inr (usage_ +:+ " file line without equal sign: '" +:+ line +:+ "'."))
    | Some offset =>
        let package := StrView.StripAsciiWhitespace (String.substring 0 offset line) in
        let prefix :=
          StrView.MaybeUnQuote
            (StrView.StripAsciiWhitespace (StrView.drop (offset + 1) line)) in
        (StdMap.assign package prefix prefix_map_, inl tt)
    end.

(** ** PrefixModeStorage and the global [g_prefix_mode] *)

Record PrefixModeStorage := mkPrefixModeStorage {
  use_package_name_ : bool;
  package_to_prefix_map_ : StdMap.t;
  package_to_prefix_mappings_path_ : string;
  exception_path_ : string;
  forced_prefix_ : string;
  exceptions_ : gset string
}.

Definition set_package_to_prefix_mappings_path (path : string) (s : PrefixModeStorage)
    : PrefixModeStorage :=
  mkPrefixModeStorage (use_package_name_ s) [] path (exception_path_ s)
                      (forced_prefix_ s) (exceptions_ s).

Definition set_use_package_name (on_or_off : bool) (s : PrefixModeStorage)
    : PrefixModeStorage :=
  mkPrefixModeStorage on_or_off (package_to_prefix_map_ s)
                      (package_to_prefix_mappings_path_ s) (exception_path_ s)
                      (forced_prefix_ s) (exceptions_ s).

Definition set_exception_path (path : string) (s : PrefixModeStorage)
    : PrefixModeStorage :=
  mkPrefixModeStorage (use_package_name_ s) (package_to_prefix_map_ s)
                      (package_to_prefix_mappings_path_ s) path
                      (forced_prefix_ s) ∅.

Definition set_forced_package_prefix (prefix : string) (s : PrefixModeStorage)
    : PrefixModeStorage :=
  mkPrefixModeStorage (use_package_name_ s) (package_to_prefix_map_ s)
                      (package_to_prefix_mappings_path_ s) (exception_path_ s)
                      prefix (exceptions_ s).

Definition with_package_to_prefix_map (m : StdMap.t) (s : PrefixModeStorage)
    : PrefixModeStorage :=
  mkPrefixModeStorage (use_package_name_ s) m
                      (package_to_prefix_mappings_path_ s) (exception_path_ s)
                      (forced_prefix_ s) (exceptions_ s).

Definition with_exceptions (e : gset string) (s : PrefixModeStorage)
    : PrefixModeStorage :=
  mkPrefixModeStorage (use_package_name_ s) (package_to_prefix_map_ s)
                      (package_to_prefix_mappings_path_ s) (exception_path_ s)
                      (forced_prefix_ s) e.

(** The process state the prefix resolution works on. *)
Record World := mkWorld {
  g_prefix_mode : PrefixModeStorage;
  trace : list Event
}.

(** A computation over the process state. *)
Definition M (A : Type) : Type := World -> A * World.

Definition ret {A : Type} (a : A) : M A := λ w, (a, w).

Definition bind {A B : Type} (m : M A) (k : A -> M B) : M B :=
  λ w, let '(a, w') := m w in k a w'.

Notation "x <- m ;; k" := (bind m (λ x, k))
  (at level 100, m at next level, right associativity).
Notation "m ;;; k" := (bind m (λ _, k))
  (at level 100, right associativity).

Definition get_storage : M PrefixModeStorage := λ w, (g_prefix_mode w, w).

Definition modify_storage (f : PrefixModeStorage -> PrefixModeStorage) : M unit :=
  λ w, (tt, mkWorld (f (g_prefix_mode w)) (trace w)).

Definition emit (e : Event) : M unit :=
  λ w, (tt, mkWorld (g_prefix_mode w) (trace w ++ [e])).

Definition when (b : bool) (m : M unit) : M unit := if b then m else ret tt.

Section PrefixResolution.

Variable fs : FileSystem.

(** The text written to [std::cerr] for a failed load: the loader's
    message, or the caller's own when the loader left none. *)
Definition load_warning (error_str fallback : string) : string :=
  if Str.empty error_str then fallback else error_str.

Definition prefix_from_proto_package_mappings (file : option FileDescriptor)
    : M string :=
  match file with
  | None => ret ""
  | Some file =>
      s <- get_storage ;;
      when (StdMap.empty (package_to_prefix_map_ s)
            && negb (Str.empty (package_to_prefix_mappings_path_ s)))
        (let path := package_to_prefix_mappings_path_ s in
         emit (ReadFile path) ;;;
         match ParseSimpleFile fs path
                 (PackageToPrefixesCollector "Package to prefixes")
                 (package_to_prefix_map_ s) with
         | (m, inl _) => modify_storage (with_package_to_prefix_map m)
         | (_, inr error_str) =>
             emit (Cerr (load_warning error_str
                           ("protoc:0: warning: Failed to parse"
                            +:+ " prefix to proto package mappings file: "
                            +:+ path))) ;;;
             modify_storage (with_package_to_prefix_map [])
         end) ;;;
      s <- get_storage ;;
      ret (match StdMap.find (lookup_key file) (package_to_prefix_map_ s) with
           | Some prefix => prefix
           | None => ""
           end)
  end.

Definition is_package_exempted (package : string) : M bool :=
  s <- get_storage ;;
  when (bool_decide (exceptions_ s = ∅)
        && negb (Str.empty (exception_path_ s)))
    (let path := exception_path_ s in
     emit (ReadFile path) ;;;
     match ParseSimpleFile fs path SimpleLineCollector (exceptions_ s) with
     | (e, inl _) => modify_storage (with_exceptions e)
     | (_, inr error_str) =>
         emit (Cerr (load_warning error_str
                       ("protoc:0: warning: Failed to parse"
                        +:+ " package prefix exceptions file: "
                        +:+ path))) ;;;
         modify_storage (with_exceptions ∅)
     end ;;;
     (* If the file was empty put something in it so it doesn't get
        reloaded over and over. *)
     s <- get_storage ;;
     when (bool_decide (exceptions_ s = ∅))
       (modify_storage (with_exceptions {[ "<not a real package>" ]}))) ;;;
  s <- get_storage ;;
  ret (bool_decide (package ∈ exceptions_ s)).

(** The loop of [FileClassPrefix] over the dot segments of the
    package. *)
Definition append_segment (result segment : string) : string :=
  let part := UnderscoresToCamelCase segment true in
  if Str.empty part then result
  else (if negb (Str.empty result) then result +:+ "_" else result) +:+ part.

Definition FileClassPrefix (file : FileDescriptor) : M string :=
  (* Always honor the file option. *)
  if has_objc_class_prefix (options file) then
    ret (objc_class_prefix (options file))
  else
    objc_class_prefix <- prefix_from_proto_package_mappings (Some file) ;;
    if negb (Str.empty objc_class_prefix) then ret objc_class_prefix
    else
      s <- get_storage ;;
      if negb (use_package_name_ s) then ret ""
      else
        exempted <- is_package_exempted (package file) ;;
        if exempted then ret ""
        else
          let segs := StrView.StrSplit_SkipEmpty (package file) "." in
          let result := fold_left append_segment segs "" in
          let result := if negb (Str.empty result) then result +:+ "_" else result in
          s <- get_storage ;;
          ret (forced_prefix_ s +:+ result).

End PrefixResolution.

Global Arguments prefix_from_proto_package_mappings : simpl never.
Global Arguments is_package_exempted : simpl never.
Global Arguments FileClassPrefix : simpl never.

(** ** Validation of the class prefixes *)

(** The boolean result of a validation together with [*out_error], which
    the code only writes when it returns false. *)
Inductive Validation :=
| Valid
| Invalid (out_error : string).

(** The loop that looks for another package registered with [prefix]: a
    "no_package:" entry is remembered and the scan goes on, the first
    real package ends it. *)
Fixpoint other_package_scan (prefix : string) (entries : StdMap.t)
    (other_package_for_prefix : string) : string :=
  match entries with
  | [] => other_package_for_prefix
  | (first, second) :: rest =>
      if String.eqb second prefix then
        if negb (Str.StartsWith first no_package_prefix) then first
        else other_package_scan prefix rest first
      else other_package_scan prefix rest other_package_for_prefix
  end.

Definition quoted_option (prefix : string) : string :=
  "'option objc_class_prefix = " +:+ Str.dquote +:+ prefix +:+ Str.dquote +:+ ";'".

(** [(prefix.empty() ? "\"\"" : prefix)]. *)
Definition prefix_or_quotes (prefix : string) : string :=
  if Str.empty prefix then Str.dquote +:+ Str.dquote else prefix.

Definition mismatch_error (file : FileDescriptor) (expected : string) : string :=
  "error: Expected " +:+ quoted_option expected
  +:+ (if negb (Str.empty (package file))
       then " for package '" +:+ package file +:+ "'" else "")
  +:+ " in '" +:+ name file +:+ "'"
  +:+ (if has_objc_class_prefix (options file)
       then "; but found '" +:+ objc_class_prefix (options file) +:+ "' instead"
       else "")
  +:+ ".".

Definition missing_prefix_error (file : FileDescriptor) : string :=
  "error: '" +:+ name file +:+ "' does not have a required 'option"
  +:+ " objc_class_prefix'.".

Definition collision_error (file : FileDescriptor) (expected_prefixes_path : string)
    (other_package_for_prefix : string) : string :=
  let prefix := objc_class_prefix (options file) in
  "error: Found " +:+ quoted_option prefix
  +:+ " in '" +:+ name file +:+ "'; that prefix is already used for "
  +:+ (if Str.StartsWith other_package_for_prefix no_package_prefix
       then "file '"
            +:+ StrView.StripPrefix other_package_for_prefix no_package_prefix
            +:+ "'."
       else "'package " +:+ other_package_for_prefix +:+ ";'.")
  +:+ " It can only be reused by adding '" +:+ lookup_key file +:+ " = " +:+ prefix
  +:+ "' to the expected prefixes file (" +:+ expected_prefixes_path +:+ ").".

Definition unregistered_error (file : FileDescriptor) (expected_prefixes_path : string)
    : string :=
  let prefix := objc_class_prefix (options file) in
  "error: '" +:+ name file +:+ "' has " +:+ quoted_option prefix
  +:+ ", but it is not registered. Add '" +:+ lookup_key file +:+ " = "
  +:+ prefix_or_quotes prefix
  +:+ "' to the expected prefixes file (" +:+ expected_prefixes_path +:+ ").".

Definition capital_warning (file : FileDescriptor) : string :=
  "protoc:0: warning: Invalid " +:+ quoted_option (objc_class_prefix (options file))
  +:+ " in '" +:+ name file +:+ "';" +:+ " it should start with a capital letter.".

Definition length_warning (file : FileDescriptor) : string :=
  "protoc:0: warning: Invalid " +:+ quoted_option (objc_class_prefix (options file))
  +:+ " in '" +:+ name file +:+ "';"
  +:+ " Apple recommends they should be at least 3 characters long.".

Definition unexpected_warning (file : FileDescriptor) (expected_prefixes_path : string)
    : string :=
  let prefix := objc_class_prefix (options file) in
  "protoc:0: warning: Found unexpected " +:+ quoted_option prefix
  +:+ " in '" +:+ name file +:+ "'; consider adding '" +:+ lookup_key file +:+ " = "
  +:+ prefix_or_quotes prefix
  +:+ "' to the expected prefixes file (" +:+ expected_prefixes_path +:+ ").".

(** The two style warnings, in the order the code prints them. *)
Definition style_warnings (file : FileDescriptor) : list Event :=
  let prefix := objc_class_prefix (options file) in
  (if negb (Str.empty prefix) && negb (Char.ascii_isupper (Str.at_ prefix 0))
   then [Cerr (capital_warning file)] else [])
  ++ (if negb (Str.empty prefix) && bool_decide (String.length prefix < 3)
      then [Cerr (length_warning file)] else []).

Definition ValidateObjCClassPrefix (file : FileDescriptor)
    (expected_prefixes_path : string) (expected_package_prefixes : StdMap.t)
    (prefixes_must_be_registered require_prefixes : bool)
    : Validation * list Event :=
  let has_prefix := has_objc_class_prefix (options file) in
  let have_expected_prefix_file := negb (Str.empty expected_prefixes_path) in
  let prefix := objc_class_prefix (options file) in
  match StdMap.find (lookup_key file) expected_package_prefixes with
  | Some second =>
      (* There was an entry, and it matches or it does not. *)
      if has_prefix && String.eqb second prefix then (Valid, [])
      else (Invalid (mismatch_error file second), [])
  | None =>
      if negb has_prefix then
        (* If there was no prefix option, we're done at this point. *)
        if require_prefixes then (Invalid (missing_prefix_error file), [])
        else (Valid, [])
      else
        let other_package_for_prefix :=
          if negb (Str.empty prefix) && have_expected_prefix_file
          then other_package_scan prefix expected_package_prefixes ""
          else "" in
        if negb (Str.empty other_package_for_prefix) then
          (Invalid (collision_error file expected_prefixes_path other_package_for_prefix),
           [])
        else
          let warnings := style_warnings file in
          if have_expected_prefix_file then
            if prefixes_must_be_registered then
              (Invalid (unregistered_error file expected_prefixes_path), warnings)
            else
              (Valid, warnings ++ [Cerr (unexpected_warning file expected_prefixes_path)])
          else (Valid, warnings)
  end.

(** The generation options the validation reads. *)
Record Options := mkOptions {
  expected_prefixes_path : string;
  expected_prefixes_suppressions : list string;
  prefixes_must_be_registered : bool;
  require_prefixes : bool
}.

Section Validation.

Variable fs : FileSystem.

Definition LoadExpectedPackagePrefixes (expected_prefixes_path : string)
    (prefix_map : StdMap.t) : (StdMap.t * (unit + string)) * list Event :=
  if Str.empty expected_prefixes_path then ((prefix_map, inl tt), [])
  else
    (ParseSimpleFile fs expected_prefixes_path
       (PackageToPrefixesCollector "Expected prefixes") prefix_map,
     [ReadFile expected_prefixes_path]).

(** The loop of [ValidateObjCClassPrefixes] over [files]; [events] is
    what earlier files printed. *)
Fixpoint validate_files (files : list FileDescriptor) (generation_options : Options)
    (expected_package_prefixes : StdMap.t) (events : list Event)
    : Validation * list Event :=
  match files with
  | [] => (Valid, events)
  | file :: rest =>
      let should_skip :=
        bool_decide (name file ∈ expected_prefixes_suppressions generation_options) in
      if should_skip then
        validate_files rest generation_options expected_package_prefixes events
      else
        match ValidateObjCClassPrefix file
                (expected_prefixes_path generation_options)
                expected_package_prefixes
                (prefixes_must_be_registered generation_options)
                (require_prefixes generation_options) with
        | (Valid, printed) =>
            validate_files rest generation_options expected_package_prefixes
                           (events ++ printed)
        | (Invalid out_error, printed) => (Invalid out_error, events ++ printed)
        end
  end.

Definition ValidateObjCClassPrefixes (files : list FileDescriptor)
    (generation_options : Options) : Validation * list Event :=
  (* A '-' as the path disables even the most basic of checks. *)
  if String.eqb (expected_prefixes_path generation_options) "-" then (Valid, [])
  else
    match LoadExpectedPackagePrefixes (expected_prefixes_path generation_options) [] with
    | ((_, inr out_error), events) => (Invalid out_error, events)
    | ((expected_package_prefixes, inl _), events) =>
        validate_files files generation_options expected_package_prefixes events
    end.

End Validation.

(** ** Sample inputs *)

Module Sample.

(** A file system with a registry of two entries, a mapping file of one
    entry, a file without entries, and nothing else. *)
Definition fs : FileSystem :=
  mkFileSystem
    (λ path,
       if String.eqb path "expected.txt"
       then Some ["other.pkg = XYZ"; "no_package:x.proto = 'QQ'"]
       else if String.eqb path "mappings.txt"
       then Some ["foo.bar_baz = FBB"]
       else if String.eqb path "empty.txt" then Some []
       else None)
    (λ path, "error: Unable to open " +:+ path)
    (λ path line_no err, "error: " +:+ path +:+ ": " +:+ err).

(** No configuration at all, and the same with the package used as the
    default prefix. *)
Definition unconfigured : World :=
  mkWorld (mkPrefixModeStorage false [] "" "" "" ∅) [].

Definition use_package : World :=
  mkWorld (set_use_package_name true (g_prefix_mode unconfigured)) [].

(** Every source of a prefix configured at once. *)
Definition configured : World :=
  mkWorld (mkPrefixModeStorage true [] "mappings.txt" "empty.txt" "GPB" ∅) [].

(** A mapping file and an exemption file that cannot be opened. *)
Definition missing_mappings : World :=
  mkWorld (mkPrefixModeStorage false [] "missing.txt" "" "" ∅) [].

Definition missing_exceptions : World :=
  mkWorld (mkPrefixModeStorage true [] "" "missing.txt" "" ∅) [].

Definition foo_bar_baz : FileDescriptor :=
  mkFileDescriptor "foo/bar_baz.proto" "foo.bar_baz" (mkFileOptions None).

Definition explicit_prefix : FileDescriptor :=
  mkFileDescriptor "foo/bar_baz.proto" "foo.bar_baz" (mkFileOptions (Some "XY")).

Definition explicit_empty : FileDescriptor :=
  mkFileDescriptor "legacy.proto" "legacy" (mkFileOptions (Some "")).

(** Two files of different packages that declare the same prefix. *)
Definition file_a : FileDescriptor :=
  mkFileDescriptor "a.proto" "pkg.a" (mkFileOptions (Some "ABC")).

Definition file_b : FileDescriptor :=
  mkFileDescriptor "b.proto" "pkg.b" (mkFileOptions (Some "ABC")).

(** A file whose prefix the registry gives to the package other.pkg. *)
Definition file_xyz : FileDescriptor :=
  mkFileDescriptor "c.proto" "pkg.c" (mkFileOptions (Some "XYZ")).

Definition registry_options : Options := mkOptions "expected.txt" [] false false.

Definition registry : StdMap.t :=
  [("no_package:x.proto", "QQ"); ("other.pkg", "XYZ")].

End Sample.

(** ** Statements of the specification, in its own words *)

(** The amended reading of "already correctly prefixed": [input] starts
    with [prefix], is strictly longer, and the character right after the
    prefix is an uppercase letter. *)
Definition judged_prefixed (prefix input : string) : bool :=
  Str.StartsWith input prefix
  && bool_decide (String.length prefix < String.length input)
  && Char.ascii_isupper (Str.at_ input (String.length prefix)).

(** A file does not stop the validation loop: it is suppressed, or it is
    valid against the registry. *)
Definition passes (generation_options : Options) (registry : StdMap.t)
    (file : FileDescriptor) : Prop :=
  name file ∈ expected_prefixes_suppressions generation_options
  \/ (ValidateObjCClassPrefix file
        (expected_prefixes_path generation_options) registry
        (prefixes_must_be_registered generation_options)
        (require_prefixes generation_options)).1 = Valid.

(** ** Paths and special method names *)

Module Path.

(** [s.rfind(c)]: the offset of the last [c], [None] for [npos]. *)
Fixpoint rfind (c : ascii) (s : string) : option nat :=
  match s with
  | EmptyString => None
  | String d s' =>
      match rfind c s' with
      | Some i => Some (S i)
      | None => if Ascii.eqb d c then Some O else None
      end
  end.

(** [PathSplit]: the directory and the basename it stores (both
    pointers non-null). *)
Definition PathSplit (path : string) : string * string :=
  match rfind "/" path with
  | None => ("", path)
  | Some last_slash =>
      (String.substring 0 last_slash path, StrView.drop (last_slash + 1) path)
  end.

End Path.

Definition BaseFileName (file : FileDescriptor) : string :=
  (Path.PathSplit (name file)).2.

(** The loop of [IsSpecialNamePrefix]: the first special name [name]
    starts with decides. *)
Fixpoint IsSpecialNamePrefix (name : string) (special_names : list string) : bool :=
  match special_names with
  | [] => false
  | special :: rest =>
      let length := String.length special in
      if Str.StartsWith name special then
        if bool_decide (length < String.length name)
        then negb (Char.ascii_islower (Str.at_ name length))
        else true
      else IsSpecialNamePrefix name rest
  end.

Definition retained_names : list string := ["new"; "alloc"; "copy"; "mutableCopy"].

Definition IsRetainedName (name : string) : bool :=
  IsSpecialNamePrefix name retained_names.

Definition init_names : list string := ["init"].

Definition IsInitName (name : string) : bool :=
  IsSpecialNamePrefix name init_names.

(** The loop of [UnCamelCaseEnumShortName] from the character at offset
    [i] on. *)
Fixpoint uncamel_from (i : nat) (name : string) : string :=
  match name with
  | EmptyString => EmptyString
  | String c rest =>
      (if bool_decide (0 < i) && Char.ascii_isupper c then "_" else "")
      +:+ String (Char.ascii_toupper c) (uncamel_from (S i) rest)
  end.

Definition UnCamelCaseEnumShortName (name : string) : string := uncamel_from 0 name.

(** ** Messages, enums and their class names *)

(** The part of [Descriptor] the names need. *)
#[warning="-register-all"]
Inductive Descriptor := mkDescriptor {
  message_name : string;
  message_containing_type : option Descriptor;
  message_file : FileDescriptor
}.

Record EnumDescriptor := mkEnumDescriptor {
  enum_name : string;
  enum_containing_type : option Descriptor;
  enum_file : FileDescriptor
}.

Record EnumValueDescriptor := mkEnumValueDescriptor {
  value_name : string;
  value_type : EnumDescriptor
}.

(** [ClassNameWorker(const Descriptor* )]. *)
Fixpoint ClassNameWorker (descriptor : Descriptor) : string :=
  match descriptor with
  | mkDescriptor n containing_type _ =>
      match containing_type with
      | Some outer => ClassNameWorker outer +:+ "_"
      | None => ""
      end +:+ n
  end.

(** [ClassNameWorker(const EnumDescriptor* )]. *)
Definition EnumClassNameWorker (descriptor : EnumDescriptor) : string :=
  match enum_containing_type descriptor with
  | Some outer => ClassNameWorker outer +:+ "_"
  | None => ""
  end +:+ enum_name descriptor.

Section Names.

Variable fs : FileSystem.
Variable kNSObjectMethodsList : list string.

(** [StripProto] is declared with the other compiler helpers, outside
    the sources: the file names are stated for an arbitrary one. *)
Variable StripProto : string -> string.

Definition FileClassName (file : FileDescriptor) : M string :=
  prefix <- FileClassPrefix fs file ;;
  let name :=
    UnderscoresToCamelCase (StripProto (BaseFileName file)) true +:+ "Root" in
  ret (SanitizeNameForObjC kNSObjectMethodsList prefix name "_RootClass").1.

(** [ClassName(descriptor, out_suffix_added)]: the name and the suffix
    stored through the pointer. *)
Definition ClassName (descriptor : Descriptor) : M (string * string) :=
  prefix <- FileClassPrefix fs (message_file descriptor) ;;
  let name := ClassNameWorker descriptor in
  ret (SanitizeNameForObjC kNSObjectMethodsList prefix name "_Class").

Definition EnumName (descriptor : EnumDescriptor) : M string :=
  prefix <- FileClassPrefix fs (enum_file descriptor) ;;
  let name := EnumClassNameWorker descriptor in
  ret (SanitizeNameForObjC kNSObjectMethodsList prefix name "_Enum").1.

Definition EnumValueName (descriptor : EnumValueDescriptor) : M string :=
  class_name <- EnumName (value_type descriptor) ;;
  let value_str := UnderscoresToCamelCase (value_name descriptor) true in
  let name := class_name +:+ "_" +:+ value_str in
  ret (SanitizeNameForObjC kNSObjectMethodsList "" name "_Value").1.

Definition EnumValueShortName (descriptor : EnumValueDescriptor) : M string :=
  class_name <- EnumName (value_type descriptor) ;;
  let long_name_prefix := class_name +:+ "_" in
  long_name <- EnumValueName descriptor ;;
  ret (StrView.StripPrefix long_name long_name_prefix).

End Names.

Global Arguments FileClassName : simpl never.
Global Arguments ClassName : simpl never.
Global Arguments EnumName : simpl never.
Global Arguments EnumValueName : simpl never.
Global Arguments EnumValueShortName : simpl never.

(** ** Field names *)

(** The type of a field as far as the names look at it: a group, with
    the message type whose name the code takes, or anything else. *)
Inductive FieldType :=
| TYPE_GROUP (message_type : Descriptor)
| TYPE_OTHER.

Record FieldDescriptor := mkFieldDescriptor {
  field_name : string;
  field_type : FieldType;
  is_repeated : bool;
  is_map : bool
}.

Definition NameFromFieldDescriptor (field : FieldDescriptor) : string :=
  match field_type field with
  | TYPE_GROUP message_type => message_name message_type
  | TYPE_OTHER => field_name field
  end.

(** [absl::EndsWith(text, suffix)]. *)
Definition EndsWith (text suffix : string) : bool :=
  bool_decide (String.length suffix <= String.length text)
  && String.eqb (StrView.drop (String.length text - String.length suffix) text) suffix.

Section FieldNames.

Variable kNSObjectMethodsList : list string.

Definition FieldName (field : FieldDescriptor) : string :=
  let name := NameFromFieldDescriptor field in
  let result := UnderscoresToCamelCase name false in
  let result :=
    if is_repeated field && negb (is_map field) then
      (* Add "Array" before do check for reserved worlds. *)
      result +:+ "Array"
    else if EndsWith result "Array" then result +:+ "_p"
    else result in
  (SanitizeNameForObjC kNSObjectMethodsList "" result "_p").1.

End FieldNames.

(** ** Predicates on characters and strings used in the properties *)

(** Every character of [s] satisfies [p]. *)
Fixpoint all_chars (p : ascii -> bool) (s : string) : bool :=
  match s with
  | EmptyString => true
  | String c s' => p c && all_chars p s'
  end.

(** A letter or a digit: the characters the camel-case scan keeps. *)
Definition is_alnum (c : ascii) : bool :=
  Char.ascii_isdigit c || Char.ascii_islower c || Char.ascii_isupper c.

(** Any other character only separates segments. *)
Definition is_separator (c : ascii) : bool := negb (is_alnum c).

(** What the scan stores: lowercase letters and digits. *)
Definition is_lower_or_digit (c : ascii) : bool :=
  Char.ascii_isdigit c || Char.ascii_islower c.

(** The invariant of the first loop of [UnderscoresToCamelCase]. *)
Definition scan_ok (st : Scan) : Prop :=
  Forall (λ value, all_chars is_lower_or_digit value = true) (values st)
  /\ all_chars is_lower_or_digit (current st) = true.

(** The invariant of the second loop: an acronym at the front was
    upper-cased as a whole. *)
Definition join_ok (acc : string * bool) : Prop :=
  acc.2 = true ->
  Str.StartsWith acc.1 "URL" = true \/ Str.StartsWith acc.1 "HTTP" = true.

(** No underscore of [word] is followed by anything but a lowercase
    letter, and none ends [word]. *)
Fixpoint lowercase_after_underscores (word : string) : bool :=
  match word with
  | EmptyString => true
  | String c rest =>
      (if Ascii.eqb c "_" then Char.ascii_islower (Str.at_ rest 0) else true)
      && lowercase_after_underscores rest
  end.

(** ** The prefix resolution read as a function of the configuration *)

(** The commands run one after the other, as a generator does for the
    files and names it emits. *)
Fixpoint for_each {A B : Type} (f : A -> M B) (l : list A) : M (list B) :=
  match l with
  | [] => ret []
  | a :: rest => b <- f a ;; bs <- for_each f rest ;; ret (b :: bs)
  end.

(** The mapping a lookup works with: the cached one, or the one read
    from the configured file when nothing is cached. *)
Definition loaded_map (fs : FileSystem) (s : PrefixModeStorage) : StdMap.t :=
  if StdMap.empty (package_to_prefix_map_ s)
     && negb (Str.empty (package_to_prefix_mappings_path_ s))
  then match ParseSimpleFile fs (package_to_prefix_mappings_path_ s)
               (PackageToPrefixesCollector "Package to prefixes")
               (package_to_prefix_map_ s) with
       | (m, inl _) => m
       | (_, inr _) => []
       end
  else package_to_prefix_map_ s.

(** The exemption set a test works with. *)
Definition loaded_exceptions (fs : FileSystem) (s : PrefixModeStorage) : gset string :=
  if bool_decide (exceptions_ s = ∅) && negb (Str.empty (exception_path_ s))
  then
    let e := match ParseSimpleFile fs (exception_path_ s) SimpleLineCollector
                     (exceptions_ s) with
             | (e, inl _) => e
             | (_, inr _) => ∅
             end in
    if bool_decide (e = ∅) then {[ "<not a real package>" ]} else e
  else exceptions_ s.

(** The prefix made of the dot segments of a package. *)
Definition package_prefix (package : string) : string :=
  let result :=
    fold_left append_segment (StrView.StrSplit_SkipEmpty package ".") "" in
  if negb (Str.empty result) then result +:+ "_" else result.

(** The prefix of a file as the four sources decide it. *)
Definition resolved_prefix (fs : FileSystem) (s : PrefixModeStorage)
    (file : FileDescriptor) : string :=
  if has_objc_class_prefix (options file) then objc_class_prefix (options file)
  else
    let mapped := default "" (StdMap.find (lookup_key file) (loaded_map fs s)) in
    if negb (Str.empty mapped) then mapped
    else if negb (use_package_name_ s) then ""
    else if bool_decide (package file ∈ loaded_exceptions fs s) then ""
    else forced_prefix_ s +:+ package_prefix (package file).

(** Two storages that resolve every file alike: they agree on the
    toggle, the forced prefix, and on what the two files give once
    loaded. *)
Definition same_config (fs : FileSystem) (s s' : PrefixModeStorage) : Prop :=
  use_package_name_ s' = use_package_name_ s
  /\ forced_prefix_ s' = forced_prefix_ s
  /\ loaded_map fs s' = loaded_map fs s
  /\ loaded_exceptions fs s' = loaded_exceptions fs s.

(** ** More sample inputs *)

Module Demo.

(** A storage whose mapping is cached, with the package used as default
    and an exemption set that holds the package "legacy". *)
Definition cached : World :=
  mkWorld (mkPrefixModeStorage true [("foo.bar_baz", "FBB"); ("quiet", "")]
             "mappings.txt" "" "GPB" {[ "legacy" ]}) [].

Definition quiet : FileDescriptor :=
  mkFileDescriptor "quiet.proto" "quiet" (mkFileOptions None).

Definition legacy : FileDescriptor :=
  mkFileDescriptor "legacy.proto" "legacy" (mkFileOptions None).

(** A file system whose mapping file gives the package "quiet" an empty
    prefix, and that holds no other file. *)
Definition fs : FileSystem :=
  mkFileSystem
    (λ path,
       if String.eqb path "quiet_mappings.txt"
       then Some ["foo.bar_baz = FBB"; "quiet ="]
       else None)
    (open_error Sample.fs) (line_error Sample.fs).

(** The mapping path, the toggle and the forced prefix set, nothing
    loaded yet and no exemption file. *)
Definition start : World :=
  mkWorld (mkPrefixModeStorage true [] "quiet_mappings.txt" "" "GPB" ∅) [].

(** The state the resolution of a first prefix leaves: the mapping file
    has been read. *)
Definition loaded : World := (FileClassPrefix fs Sample.foo_bar_baz start).2.

End Demo.

(** A character that is no white space, no equal sign and no quote: what
    package names, file paths and prefixes are made of. *)
Definition is_plain (c : ascii) : bool :=
  negb (Char.ascii_isspace c) && negb (Ascii.eqb c "=")
  && negb (Ascii.eqb c "'") && negb (Ascii.eqb c "034").

(** A letter, a digit or an underscore. *)
Definition is_ident (c : ascii) : bool := is_alnum c || Ascii.eqb c "_".

Module DemoField.

Definition tags : FieldDescriptor :=
  mkFieldDescriptor "tags" TYPE_OTHER true false.

End DemoField.

(** * Properties *)

(** ** Facts about strings *)

Section StringFacts.

Implicit Types s t u : string.

Lemma append_nil s : "" +:+ s = s.
Proof. reflexivity. Qed.

Lemma append_cons c s t : String c s +:+ t = String c (s +:+ t).
Proof. reflexivity. Qed.

Lemma append_empty_r s : s +:+ "" = s.
Proof.
  induction s as [|c s IH]; [done|]. by rewrite append_cons, IH.
Qed.

Lemma append_assoc s t u : (s +:+ t) +:+ u = s +:+ t +:+ u.
Proof.
  induction s as [|c s IH]; [done|]. by rewrite !append_cons, IH.
Qed.

Lemma length_append s t :
  String.length (s +:+ t) = String.length s + String.length t.
Proof.
  induction s as [|c s IH]; [done|]. rewrite append_cons. cbn. by rewrite IH.
Qed.

Lemma StartsWith_append s t : Str.StartsWith (s +:+ t) s = true.
Proof.
  unfold Str.StartsWith. induction s as [|c s IH].
  - by destruct t.
  - rewrite append_cons. cbn. destruct (ascii_dec c c); [exact IH | done].
Qed.

Lemma StartsWith_empty s : Str.StartsWith s "" = true.
Proof. by destruct s. Qed.

Lemma StartsWith_length s t :
  Str.StartsWith s t = true -> String.length t <= String.length s.
Proof.
  unfold Str.StartsWith. revert s.
  induction t as [|c t IH]; intros [|d s]; cbn; try (intros; lia); try done.
  destruct (ascii_dec c d); [|done]. intros H%IH. lia.
Qed.

Lemma at_append s t : Str.at_ (s +:+ t) (String.length s) = Str.at_ t 0.
Proof.
  unfold Str.at_. induction s as [|c s IH]; [done|].
  rewrite append_cons. exact IH.
Qed.

Lemma at_length s : Str.at_ s (String.length s) = Ascii.zero.
Proof. unfold Str.at_. induction s as [|c s IH]; [done | exact IH]. Qed.

Lemma append_eq_self_l s t : s +:+ t = t -> s = "".
Proof.
  intros H. apply (f_equal String.length) in H. rewrite length_append in H.
  destruct s; [done | cbn in H; lia].
Qed.

Lemma append_eq_self_r s t : s +:+ t = s -> t = "".
Proof.
  intros H. apply (f_equal String.length) in H. rewrite length_append in H.
  destruct t; [done | cbn in H; lia].
Qed.

Lemma empty_true s : Str.empty s = true <-> s = "".
Proof. by destruct s. Qed.

Lemma empty_false s : Str.empty s = false <-> s <> "".
Proof. by destruct s. Qed.

End StringFacts.

(** ** The sanitizer *)

Section SanitizerFacts.

Implicit Types prefix input extension : string.

(** The local [sanitized] is the input itself or the prefixed input. *)
Lemma sanitized_cases prefix input :
  sanitized prefix input =
    if judged_prefixed prefix input then input else prefix +:+ input.
Proof.
  unfold sanitized, judged_prefixed.
  destruct (Str.StartsWith input prefix) eqn:Hstart; [|done].
  apply StartsWith_length in Hstart. cbn.
  destruct (Char.ascii_isupper _) eqn:Hup.
  - repeat case_bool_decide; cbn; try done; lia.
  - rewrite orb_true_r, andb_false_r. done.
Qed.

Lemma sanitized_fixed prefix input :
  sanitized prefix input = input <->
  prefix = "" \/ judged_prefixed prefix input = true.
Proof.
  rewrite sanitized_cases. destruct (judged_prefixed prefix input); split.
  - by right.
  - done.
  - intros H%append_eq_self_l. by left.
  - by intros [-> | ?].
Qed.

Lemma sanitized_starts prefix input :
  Str.StartsWith (sanitized prefix input) prefix = true.
Proof.
  rewrite sanitized_cases. destruct (judged_prefixed prefix input) eqn:H.
  - unfold judged_prefixed in H. by repeat apply andb_prop in H as [H _].
  - apply StartsWith_append.
Qed.

Lemma sanitized_self prefix : sanitized prefix prefix = prefix +:+ prefix.
Proof.
  rewrite sanitized_cases. unfold judged_prefixed.
  case_bool_decide; [lia|]. by rewrite andb_false_r.
Qed.

End SanitizerFacts.

(** C1, as amended: Step A of the sanitizer keeps [input] when [input]
    starts with [prefix], is strictly longer than [prefix] and the
    character right after the prefix is uppercase, and prepends [prefix]
    verbatim in every other case; the outcome equals [input] exactly in
    the first case or when the prefix is empty; an [input] equal to the
    prefix gets the prefix prepended once more. *)
Theorem C1_step_A_amended (prefix input : string) :
  sanitized prefix input
    = (if judged_prefixed prefix input then input else prefix +:+ input)
  /\ (sanitized prefix input = input
      <-> prefix = "" \/ judged_prefixed prefix input = true)
  /\ sanitized prefix prefix = prefix +:+ prefix.
Proof.
  split; [apply sanitized_cases|]. split; [apply sanitized_fixed|].
  apply sanitized_self.
Qed.

(** C1, as stated, fails: "ABC" starts with the prefix "ABC" and has the
    same length, yet Step A does not leave it unchanged. *)
Lemma C1_step_A_counterexample :
  Str.StartsWith "ABC" "ABC" = true
  /\ String.length "ABC" = String.length "ABC"
  /\ sanitized "ABC" "ABC" = "ABCABC"
  /\ sanitized "ABC" "ABC" <> "ABC".
Proof. repeat split; done. Qed.

Section ResanitizeFacts.

Variable kNSObjectMethodsList : list string.
Implicit Types prefix input extension name : string.

Local Abbreviation Sanitize := (SanitizeNameForObjC kNSObjectMethodsList).
Local Abbreviation collides := (needs_extension kNSObjectMethodsList).

Lemma Sanitize_result prefix input extension :
  (Sanitize prefix input extension).1 =
    if collides (sanitized prefix input)
    then sanitized prefix input +:+ extension
    else sanitized prefix input.
Proof.
  unfold SanitizeNameForObjC. by destruct (collides (sanitized prefix input)).
Qed.

Lemma StartsWith_append_l name prefix extension :
  Str.StartsWith name prefix = true ->
  Str.StartsWith (name +:+ extension) prefix = true.
Proof.
  unfold Str.StartsWith. revert name.
  induction prefix as [|c prefix IH]; intros [|d name]; try done.
  - intros _. by destruct extension.
  - rewrite append_cons. cbn. destruct (ascii_dec c d); [apply IH | done].
Qed.

(** Every result of the sanitizer starts with the prefix. *)
Lemma Sanitize_starts prefix input extension :
  Str.StartsWith (Sanitize prefix input extension).1 prefix = true.
Proof.
  rewrite Sanitize_result. destruct (collides _).
  - apply StartsWith_append_l, sanitized_starts.
  - apply sanitized_starts.
Qed.

Lemma judged_prefixed_upper prefix name :
  Str.StartsWith name prefix = true ->
  judged_prefixed prefix name
    = Char.ascii_isupper (Str.at_ name (String.length prefix)).
Proof.
  intros Hstart. unfold judged_prefixed. rewrite Hstart. cbn.
  apply StartsWith_length in Hstart.
  case_bool_decide as Hlen; [done|]. cbn.
  replace (String.length prefix) with (String.length name) by lia.
  by rewrite at_length.
Qed.

(** When a name that starts with the prefix is a fixed point of the
    sanitizer. *)
Lemma Sanitize_fixed_point prefix name extension :
  Str.StartsWith name prefix = true ->
  (Sanitize prefix name extension).1 = name <->
  (prefix = "" \/ Char.ascii_isupper (Str.at_ name (String.length prefix)) = true)
  /\ (collides name = false \/ extension = "").
Proof.
  intros Hstart. rewrite Sanitize_result, <- (judged_prefixed_upper _ _ Hstart).
  rewrite <- sanitized_fixed. rewrite sanitized_cases.
  destruct (judged_prefixed prefix name) eqn:Hj.
  - destruct (collides name); split.
    + intros ->%append_eq_self_r. split; [done | by right].
    + intros [_ [? | ->]]; [done | apply append_empty_r].
    + intros _. split; [done | by left].
    + done.
  - split.
    + intros H. assert (prefix = "") as ->.
      { apply (f_equal String.length) in H.
        destruct (collides _); rewrite ?length_append in H;
          destruct prefix; try done; cbn in H; lia. }
      rewrite append_nil in *. split; [done|].
      destruct (collides name); [right | by left].
      by apply append_eq_self_r in H.
    + intros [Hfix Hext]. rewrite Hfix.
      destruct (collides name); [|done].
      destruct Hext as [? | ->]; [done | apply append_empty_r].
Qed.

End ResanitizeFacts.

(** C2, as amended: re-sanitizing a result [r] of the sanitizer with the
    same prefix and extension gives [r] back exactly when Step A judges
    [r] prefixed (the prefix is empty, or the character of [r] right
    after the prefix is uppercase) and [r] needs no extension (or the
    extension is empty). *)
Theorem C2_resanitize_amended (kNSObjectMethodsList : list string)
    (prefix input extension : string) :
  let r := (SanitizeNameForObjC kNSObjectMethodsList prefix input extension).1 in
  (SanitizeNameForObjC kNSObjectMethodsList prefix r extension).1 = r
  <-> (prefix = "" \/ Char.ascii_isupper (Str.at_ r (String.length prefix)) = true)
      /\ (needs_extension kNSObjectMethodsList r = false \/ extension = "").
Proof.
  intros r. apply Sanitize_fixed_point, Sanitize_starts.
Qed.

(** C2, as stated, fails: whatever the table of inherited methods holds,
    sanitizing "foo" under the prefix "ABC" gives a name that a second
    pass prefixes again. *)
Lemma C2_idempotence_counterexample :
  ~ exists kNSObjectMethodsList : list string,
      (SanitizeNameForObjC kNSObjectMethodsList "ABC"
         (SanitizeNameForObjC kNSObjectMethodsList "ABC" "foo" "_X").1 "_X").1
      = (SanitizeNameForObjC kNSObjectMethodsList "ABC" "foo" "_X").1.
Proof.
  intros [tbl H].
  apply Sanitize_fixed_point in H as [[? | Hup] _]; [done | | apply Sanitize_starts].
  unfold SanitizeNameForObjC in Hup.
  destruct (needs_extension tbl (sanitized "ABC" "foo")); vm_compute in Hup; done.
Qed.

(** C9: with an empty prefix Step A returns the input itself, so the
    sanitizer returns the input with no suffix reported, or, when the
    input is a reserved C identifier, a reserved word or an inherited
    method, the input followed by the extension, which it reports. *)
Theorem C9_empty_prefix (kNSObjectMethodsList : list string)
    (input extension : string) :
  sanitized "" input = input
  /\ SanitizeNameForObjC kNSObjectMethodsList "" input extension
     = if IsReservedCIdentifier input
          || bool_decide (input ∈ kReservedWords)
          || bool_decide (input ∈ kNSObjectMethods kNSObjectMethodsList)
       then (input +:+ extension, extension)
       else (input, "").
Proof.
  assert (sanitized "" input = input) as Hid by (apply sanitized_fixed; by left).
  split; [done|]. unfold SanitizeNameForObjC. rewrite Hid. reflexivity.
Qed.

(** ** The camel-case conversion *)

(** C7: the four listed conversions; "url" is one of the segments that
    are upper-cased as a whole. *)
Theorem C7_camel_case_examples :
  UnderscoresToCamelCase "foo_bar" true = "FooBar"
  /\ "url" ∈ kUpperSegments
  /\ UnderscoresToCamelCase "my_url" false = "myURL"
  /\ UnderscoresToCamelCase "" true = ""
  /\ UnderscoresToCamelCase "v2_api" true = "V2Api".
Proof.
  repeat split; vm_compute; reflexivity.
Qed.

(** C8, as amended: "HTTPServer" is scanned as the single segment
    "httpserver", because an uppercase letter after an uppercase letter
    and a lowercase letter after an uppercase letter both continue the
    current segment; that segment is no acronym, so only its first letter
    is upper-cased. *)
Theorem C8_uppercase_run_amended :
  segments "HTTPServer" = [""; "httpserver"]
  /\ UnderscoresToCamelCase "HTTPServer" true = "Httpserver".
Proof. split; vm_compute; reflexivity. Qed.

(** C8, as stated, fails: joining the segments "http" and "server" gives
    "HTTPServer", which is not what the conversion of "HTTPServer"
    returns. *)
Lemma C8_uppercase_run_counterexample :
  join_segments ["http"; "server"] true = "HTTPServer"
  /\ UnderscoresToCamelCase "HTTPServer" true
     <> join_segments ["http"; "server"] true.
Proof. split; [vm_compute; reflexivity | vm_compute; discriminate]. Qed.

(** ** The prefix resolution *)

Ltac run_m :=
  unfold bind, when, emit, modify_storage, get_storage, ret in *; cbn in *.

Lemma bind_run {A B : Type} (m : M A) (k : A -> M B) (w : World) :
  bind m k w = k (m w).1 (m w).2.
Proof. unfold bind. by destruct (m w). Qed.

Section ResolutionFacts.

Variable fs : FileSystem.
Implicit Types (w : World) (file : FileDescriptor).

(** The fields of the storage a lookup in the mapping file leaves
    alone. *)
Lemma mappings_frame (file : option FileDescriptor) w :
  let s := g_prefix_mode w in
  let s' := g_prefix_mode (prefix_from_proto_package_mappings fs file w).2 in
  use_package_name_ s' = use_package_name_ s
  /\ forced_prefix_ s' = forced_prefix_ s
  /\ package_to_prefix_mappings_path_ s' = package_to_prefix_mappings_path_ s
  /\ exception_path_ s' = exception_path_ s
  /\ exceptions_ s' = exceptions_ s.
Proof.
  destruct file as [file|]; [|done].
  unfold prefix_from_proto_package_mappings. run_m.
  destruct (StdMap.empty _ && _); cbn; [|done].
  by destruct (ParseSimpleFile _ _ _ _) as [m [[]|err]].
Qed.

(** The fields of the storage an exemption test leaves alone. *)
Lemma exempted_frame (package : string) w :
  let s := g_prefix_mode w in
  let s' := g_prefix_mode (is_package_exempted fs package w).2 in
  use_package_name_ s' = use_package_name_ s
  /\ forced_prefix_ s' = forced_prefix_ s
  /\ package_to_prefix_mappings_path_ s' = package_to_prefix_mappings_path_ s
  /\ package_to_prefix_map_ s' = package_to_prefix_map_ s
  /\ exception_path_ s' = exception_path_ s.
Proof.
  unfold is_package_exempted. run_m.
  destruct (bool_decide _ && _); cbn; [|done].
  destruct (ParseSimpleFile _ _ _ _) as [e [[]|err]]; cbn;
    repeat case_bool_decide; done.
Qed.

(** The file option is honoured before anything else is looked at. *)
Lemma FileClassPrefix_option file w (prefix : string) :
  objc_class_prefix_field (options file) = Some prefix ->
  FileClassPrefix fs file w = (prefix, w).
Proof.
  intros H. unfold FileClassPrefix, has_objc_class_prefix, objc_class_prefix.
  rewrite H. by rewrite bool_decide_eq_true_2.
Qed.

(** The prefix derived from the package, once the option, the mapping
    and the exemption have given nothing. *)
Lemma FileClassPrefix_derived file w :
  objc_class_prefix_field (options file) = None ->
  use_package_name_ (g_prefix_mode w) = true ->
  (prefix_from_proto_package_mappings fs (Some file) w).1 = "" ->
  (is_package_exempted fs (package file)
     (prefix_from_proto_package_mappings fs (Some file) w).2).1 = false ->
  (FileClassPrefix fs file w).1 =
    let result :=
      fold_left append_segment (StrView.StrSplit_SkipEmpty (package file) ".") "" in
    forced_prefix_ (g_prefix_mode w)
    +:+ (if negb (Str.empty result) then result +:+ "_" else result).
Proof.
  intros Hopt Huse Hmap Hex.
  destruct (mappings_frame (Some file) w) as (Hu1 & Hp1 & _).
  destruct (exempted_frame (package file)
              (prefix_from_proto_package_mappings fs (Some file) w).2)
    as (_ & Hp2 & _).
  unfold FileClassPrefix, has_objc_class_prefix. rewrite Hopt.
  rewrite bool_decide_eq_false_2 by (by intros [? ?]).
  rewrite bind_run, Hmap. cbn.
  rewrite Hu1, Huse. cbn. rewrite bind_run, Hex. cbn.
  by rewrite Hp2, Hp1.
Qed.

End ResolutionFacts.

(** C6: a file that declares the prefix option, an empty one included,
    gets exactly the declared value, and the storage is not even
    consulted. *)
Theorem C6_explicit_prefix_wins (fs : FileSystem) (file : FileDescriptor)
    (w : World) :
  has_objc_class_prefix (options file) = true ->
  FileClassPrefix fs file w = (objc_class_prefix (options file), w).
Proof.
  unfold has_objc_class_prefix, objc_class_prefix.
  intros [prefix H]%bool_decide_eq_true_1.
  rewrite (FileClassPrefix_option fs file w prefix H). by rewrite H.
Qed.

(** C6 on two files, with a mapping file, an exemption file, the toggle
    and a forced prefix all configured. *)
Lemma C6_explicit_prefix_wins_witness :
  has_objc_class_prefix (options Sample.explicit_prefix) = true
  /\ FileClassPrefix Sample.fs Sample.explicit_prefix Sample.configured
     = ("XY", Sample.configured)
  /\ FileClassPrefix Sample.fs Sample.explicit_empty Sample.configured
     = ("", Sample.configured).
Proof.
  split; [reflexivity|]. split.
  - apply (C6_explicit_prefix_wins Sample.fs Sample.explicit_prefix). reflexivity.
  - apply (C6_explicit_prefix_wins Sample.fs Sample.explicit_empty). reflexivity.
Defined.

(** C4, as amended: with the package used as the default prefix, no file
    option, nothing from the mapping file, a package "foo.bar_baz" that
    is not exempted and no forced prefix, the prefix is "Foo_BarBaz_":
    the camel-cased dot segments are joined with underscores. *)
Theorem C4_package_prefix_amended (fs : FileSystem) (file : FileDescriptor)
    (w : World) :
  has_objc_class_prefix (options file) = false ->
  package file = "foo.bar_baz" ->
  use_package_name_ (g_prefix_mode w) = true ->
  forced_prefix_ (g_prefix_mode w) = "" ->
  (prefix_from_proto_package_mappings fs (Some file) w).1 = "" ->
  (is_package_exempted fs "foo.bar_baz"
     (prefix_from_proto_package_mappings fs (Some file) w).2).1 = false ->
  (FileClassPrefix fs file w).1 = "Foo_BarBaz_".
Proof.
  intros Hopt Hpkg Huse Hforced Hmap Hex.
  rewrite FileClassPrefix_derived; try done.
  - rewrite Hpkg, Hforced. vm_compute. reflexivity.
  - unfold has_objc_class_prefix in Hopt.
    destruct (objc_class_prefix_field (options file)); [|done].
    by rewrite bool_decide_eq_true_2 in Hopt.
  - by rewrite Hpkg.
Qed.

(** C4 on a file of the package "foo.bar_baz", with the toggle as the
    only configuration. *)
Lemma C4_package_prefix_amended_witness :
  (FileClassPrefix Sample.fs Sample.foo_bar_baz Sample.use_package).1
  = "Foo_BarBaz_".
Proof.
  apply (C4_package_prefix_amended Sample.fs Sample.foo_bar_baz Sample.use_package);
    vm_compute; reflexivity.
Defined.

(** C4, as stated, fails: the derived prefix keeps an underscore between
    the segments of the package. *)
Lemma C4_package_prefix_counterexample :
  (FileClassPrefix Sample.fs Sample.foo_bar_baz Sample.use_package).1
  <> "FooBarBaz_".
Proof. vm_compute. discriminate. Qed.

(** ** Loading the configuration files once *)

Section LoadingFacts.

Variable fs : FileSystem.
Implicit Types (w : World) (file : FileDescriptor) (package : string).

(** After an exemption test with a configured path the set is never
    empty: a failed load and an empty file both leave the marker
    entry. *)
Lemma exemptions_marked package w :
  exception_path_ (g_prefix_mode w) <> "" ->
  exceptions_ (g_prefix_mode (is_package_exempted fs package w).2) <> ∅.
Proof.
  intros Hpath%empty_false. unfold is_package_exempted. run_m. rewrite Hpath.
  case_bool_decide as Hempty; cbn; [|done].
  destruct (ParseSimpleFile _ _ _ _) as [e [[]|err]]; cbn;
    case_bool_decide; cbn; try done; set_solver.
Qed.

(** With a non-empty set the exemption test reads nothing, prints
    nothing and changes nothing. *)
Lemma exemptions_not_reloaded package w :
  exceptions_ (g_prefix_mode w) <> ∅ ->
  (is_package_exempted fs package w).2 = w.
Proof.
  intros Hset. unfold is_package_exempted. run_m.
  rewrite bool_decide_eq_false_2 by done. cbn. by destruct w.
Qed.

(** The exemption file is read by the first test at most. *)
Lemma exemptions_loaded_once package package' w :
  exception_path_ (g_prefix_mode w) <> "" ->
  let w1 := (is_package_exempted fs package w).2 in
  (is_package_exempted fs package' w1).2 = w1.
Proof. intros Hpath w1. by apply exemptions_not_reloaded, exemptions_marked. Qed.

(** A mapping file that cannot be opened is read, and reported, by
    every lookup: the lookup leaves the storage as it found it. *)
Lemma mappings_reloaded file w :
  let path := package_to_prefix_mappings_path_ (g_prefix_mode w) in
  package_to_prefix_map_ (g_prefix_mode w) = [] ->
  path <> "" ->
  read_lines fs path = None ->
  prefix_from_proto_package_mappings fs (Some file) w
  = ("", mkWorld (g_prefix_mode w)
           (trace w
            ++ [ReadFile path;
                Cerr (load_warning (open_error fs path)
                        ("protoc:0: warning: Failed to parse"
                         +:+ " prefix to proto package mappings file: "
                         +:+ path))])).
Proof.
  intros path Hmap Hpath%empty_false Hread. subst path.
  unfold prefix_from_proto_package_mappings, ParseSimpleFile. run_m.
  rewrite Hmap, Hpath, Hread. cbn.
  destruct w as [[] ?]. cbn in *. subst.
  unfold with_package_to_prefix_map. cbn. by rewrite <- (assoc_L (++)).
Qed.

End LoadingFacts.

(** C5, at the failing input: two lookups with a mapping file that cannot
    be opened read the file twice and print the warning twice, and two
    lookups with a mapping file without entries read it twice, whereas
    two exemption tests with a file that cannot be opened read it
    once. *)
Theorem C5_mappings_reloaded_every_lookup :
  trace ((prefix_from_proto_package_mappings Sample.fs (Some Sample.foo_bar_baz) ;;;
          prefix_from_proto_package_mappings Sample.fs (Some Sample.foo_bar_baz))
           Sample.missing_mappings).2
  = [ReadFile "missing.txt"; Cerr "error: Unable to open missing.txt";
     ReadFile "missing.txt"; Cerr "error: Unable to open missing.txt"]
  /\ trace ((prefix_from_proto_package_mappings Sample.fs (Some Sample.foo_bar_baz) ;;;
             prefix_from_proto_package_mappings Sample.fs (Some Sample.foo_bar_baz))
              (mkWorld (set_package_to_prefix_mappings_path "empty.txt"
                          (g_prefix_mode Sample.unconfigured)) [])).2
     = [ReadFile "empty.txt"; ReadFile "empty.txt"]
  /\ trace ((is_package_exempted Sample.fs "foo.bar_baz" ;;;
             is_package_exempted Sample.fs "foo.bar_baz")
              Sample.missing_exceptions).2
     = [ReadFile "missing.txt"; Cerr "error: Unable to open missing.txt"].
Proof. repeat split; vm_compute; reflexivity. Qed.

(** ** The validation *)

Section ValidationFacts.

Implicit Types (file : FileDescriptor) (registry : StdMap.t).
Implicit Types (prefix path other : string).

(** The scan returns what it started with or a key registered with the
    prefix. *)
Lemma other_package_scan_cases prefix registry other :
  other_package_scan prefix registry other = other
  \/ (other_package_scan prefix registry other, prefix) ∈ registry.
Proof.
  revert other. induction registry as [|[first second] rest IH]; intros other.
  - by left.
  - cbn. destruct (String.eqb_spec second prefix) as [-> | Hne].
    + right. destruct (negb _); [apply list_elem_of_here|].
      destruct (IH first) as [-> | Hin].
      * apply list_elem_of_here.
      * by apply list_elem_of_further.
    + destruct (IH other) as [Heq | Hin]; [by left|].
      right. by apply list_elem_of_further.
Qed.

(** When some key is registered with the prefix, the scan returns such
    a key. *)
Lemma other_package_scan_found prefix registry other :
  (exists key, (key, prefix) ∈ registry) ->
  (other_package_scan prefix registry other, prefix) ∈ registry.
Proof.
  revert other. induction registry as [|[first second] rest IH];
    intros other [key Hin].
  - by apply elem_of_nil in Hin.
  - cbn. destruct (String.eqb_spec second prefix) as [-> | Hne].
    + destruct (negb _); [apply list_elem_of_here|].
      destruct (other_package_scan_cases prefix rest first) as [-> | Hrest].
      * apply list_elem_of_here.
      * by apply list_elem_of_further.
    + apply list_elem_of_further, IH.
      apply elem_of_cons in Hin as [[= -> ->] | Hin]; [done | by exists key].
Qed.

(** A declared, non-empty prefix that the registry gives to another key
    is a hard error that cites that key. *)
Lemma ValidateObjCClassPrefix_collision file path registry prefix
    (prefixes_must_be_registered require_prefixes : bool) :
  objc_class_prefix_field (options file) = Some prefix ->
  prefix <> "" ->
  path <> "" ->
  StdMap.find (lookup_key file) registry = None ->
  (exists key, (key, prefix) ∈ registry) ->
  (forall key, (key, prefix) ∈ registry -> key <> "") ->
  exists other,
    (other, prefix) ∈ registry
    /\ ValidateObjCClassPrefix file path registry
         prefixes_must_be_registered require_prefixes
       = (Invalid (collision_error file path other), []).
Proof.
  intros Hopt Hprefix%empty_false Hpath%empty_false Hfind Hsome Hkeys.
  exists (other_package_scan prefix registry "").
  pose proof (other_package_scan_found prefix registry "" Hsome) as Hin.
  split; [done|].
  unfold ValidateObjCClassPrefix, has_objc_class_prefix, objc_class_prefix.
  rewrite Hfind, Hopt, bool_decide_eq_true_2 by done. cbn.
  rewrite Hprefix, Hpath. cbn.
  apply Hkeys, empty_false in Hin. by rewrite Hin.
Qed.

(** A declared empty prefix without a registry entry, with a registry
    configured and registration required, is refused; no other key is
    looked for and nothing is printed. *)
Lemma ValidateObjCClassPrefix_unregistered_empty file path registry
    (require_prefixes : bool) :
  objc_class_prefix_field (options file) = Some "" ->
  path <> "" ->
  StdMap.find (lookup_key file) registry = None ->
  ValidateObjCClassPrefix file path registry true require_prefixes
  = (Invalid (unregistered_error file path), []).
Proof.
  intros Hopt Hpath%empty_false Hfind.
  unfold ValidateObjCClassPrefix, style_warnings, has_objc_class_prefix,
    objc_class_prefix.
  rewrite Hfind, Hopt, bool_decide_eq_true_2 by done. cbn.
  by rewrite Hpath.
Qed.

(** The loop stops at the first file that is not suppressed and not
    valid, with that file's error. *)
Lemma validate_files_first_error generation_options registry
    (before after : list FileDescriptor) file (out_error : string)
    (events : list Event) :
  Forall (passes generation_options registry) before ->
  name file ∉ expected_prefixes_suppressions generation_options ->
  (ValidateObjCClassPrefix file
     (expected_prefixes_path generation_options) registry
     (prefixes_must_be_registered generation_options)
     (require_prefixes generation_options)).1 = Invalid out_error ->
  (validate_files (before ++ file :: after) generation_options registry events).1
  = Invalid out_error.
Proof.
  intros Hbefore Hfile Hinvalid. revert events.
  induction Hbefore as [|f before Hf _ IH]; intros events; cbn.
  - rewrite bool_decide_eq_false_2 by done.
    destruct (ValidateObjCClassPrefix _ _ _ _ _) as [[|e] printed];
      cbn in *; by simplify_eq.
  - case_bool_decide as Hskip; [apply IH|].
    destruct Hf as [? | Hvalid]; [done|].
    destruct (ValidateObjCClassPrefix f _ _ _ _) as [[|e] printed];
      cbn in *; [apply IH | done].
Qed.

(** A batch whose files each pass on their own is valid: no file is
    compared with another file of the batch. *)
Lemma validate_files_all_pass generation_options registry
    (files : list FileDescriptor) (events : list Event) :
  Forall (passes generation_options registry) files ->
  (validate_files files generation_options registry events).1 = Valid.
Proof.
  intros Hfiles. revert events.
  induction Hfiles as [|f files Hf _ IH]; intros events; cbn; [done|].
  case_bool_decide as Hskip; [apply IH|].
  destruct Hf as [? | Hvalid]; [done|].
  destruct (ValidateObjCClassPrefix f _ _ _ _) as [[|e] printed];
    cbn in *; [apply IH | done].
Qed.

End ValidationFacts.

(** The text of the collision error: it cites the file, its lookup key,
    and the package or file the registry gives the prefix to. *)
Lemma collision_error_text (file : FileDescriptor) (path other prefix : string) :
  objc_class_prefix_field (options file) = Some prefix ->
  collision_error file path other
  = "error: Found 'option objc_class_prefix = " +:+ Str.dquote +:+ prefix
    +:+ Str.dquote +:+ ";' in '" +:+ name file
    +:+ "'; that prefix is already used for "
    +:+ (if Str.StartsWith other no_package_prefix
         then "file '" +:+ StrView.StripPrefix other no_package_prefix +:+ "'."
         else "'package " +:+ other +:+ ";'.")
    +:+ " It can only be reused by adding '" +:+ lookup_key file +:+ " = "
    +:+ prefix +:+ "' to the expected prefixes file (" +:+ path +:+ ").".
Proof.
  intros Hopt. unfold collision_error, quoted_option, objc_class_prefix.
  rewrite Hopt. cbn. by rewrite !append_assoc.
Qed.

Lemma unregistered_error_text (file : FileDescriptor) (path : string) :
  objc_class_prefix_field (options file) = Some "" ->
  unregistered_error file path
  = "error: '" +:+ name file +:+ "' has 'option objc_class_prefix = "
    +:+ Str.dquote +:+ Str.dquote +:+ ";', but it is not registered. Add '"
    +:+ lookup_key file +:+ " = " +:+ Str.dquote +:+ Str.dquote
    +:+ "' to the expected prefixes file (" +:+ path +:+ ").".
Proof.
  intros Hopt. unfold unregistered_error, quoted_option, objc_class_prefix.
  by rewrite Hopt.
Qed.

(** The scan keeps the empty text for "nothing found", so an entry with
    an empty key that holds the prefix ends it with nothing found. *)
Lemma other_package_scan_empty_key (prefix : string) (rest : StdMap.t) :
  other_package_scan prefix (("", prefix) :: rest) "" = "".
Proof. cbn. by rewrite String.eqb_refl. Qed.

(** C3, as amended: the files of a batch are compared with the registry
    only.  When a file that is not suppressed declares a non-empty prefix,
    the registry that was loaded has no entry for the file's lookup key
    but gives the prefix to some other key, and does not give it to the
    empty key, and every earlier file of the batch is suppressed or
    valid, the batch validation fails with the error that cites the file
    and a package or file the registry gives the prefix to. *)
Theorem C3_registry_collision_amended (fs : FileSystem)
    (before after : list FileDescriptor) (file : FileDescriptor)
    (generation_options : Options) (registry : StdMap.t) (prefix : string) :
  let path := expected_prefixes_path generation_options in
  path <> "-" ->
  path <> "" ->
  (LoadExpectedPackagePrefixes fs path []).1 = (registry, inl tt) ->
  Forall (passes generation_options registry) before ->
  name file ∉ expected_prefixes_suppressions generation_options ->
  objc_class_prefix_field (options file) = Some prefix ->
  prefix <> "" ->
  StdMap.find (lookup_key file) registry = None ->
  (exists key, (key, prefix) ∈ registry) ->
  ("", prefix) ∉ registry ->
  exists other,
    (other, prefix) ∈ registry
    /\ (ValidateObjCClassPrefixes fs (before ++ file :: after) generation_options).1
       = Invalid
           ("error: Found 'option objc_class_prefix = " +:+ Str.dquote +:+ prefix
            +:+ Str.dquote +:+ ";' in '" +:+ name file
            +:+ "'; that prefix is already used for "
            +:+ (if Str.StartsWith other no_package_prefix
                 then "file '" +:+ StrView.StripPrefix other no_package_prefix
                      +:+ "'."
                 else "'package " +:+ other +:+ ";'.")
            +:+ " It can only be reused by adding '" +:+ lookup_key file
            +:+ " = " +:+ prefix +:+ "' to the expected prefixes file ("
            +:+ path +:+ ").").
Proof.
  intros path Hdash Hpath Hload Hbefore Hfile Hopt Hprefix Hfind Hsome Hempty.
  assert (forall key, (key, prefix) ∈ registry -> key <> "") as Hkeys.
  { intros key Hin ->. by apply Hempty. }
  destruct (ValidateObjCClassPrefix_collision file path registry prefix
              (prefixes_must_be_registered generation_options)
              (require_prefixes generation_options)
              Hopt Hprefix Hpath Hfind Hsome Hkeys) as (other & Hin & Hfail).
  exists other. split; [done|].
  rewrite <- (collision_error_text file path other prefix Hopt).
  unfold ValidateObjCClassPrefixes. fold path.
  apply String.eqb_neq in Hdash. rewrite Hdash.
  destruct (LoadExpectedPackagePrefixes fs path []) as [[m res] events].
  cbn in Hload. simplify_eq.
  apply validate_files_first_error; [done | done |].
  fold path. by rewrite Hfail.
Qed.

(** C3 on a batch of three files whose second file declares the prefix
    the registry gives to the package other.pkg. *)
Lemma C3_registry_collision_amended_witness :
  exists other,
    (other, "XYZ") ∈ Sample.registry
    /\ (ValidateObjCClassPrefixes Sample.fs
          ([Sample.file_a] ++ Sample.file_xyz :: [Sample.file_b])
          Sample.registry_options).1
       = Invalid
           ("error: Found 'option objc_class_prefix = " +:+ Str.dquote +:+ "XYZ"
            +:+ Str.dquote +:+ ";' in '" +:+ name Sample.file_xyz
            +:+ "'; that prefix is already used for "
            +:+ (if Str.StartsWith other no_package_prefix
                 then "file '" +:+ StrView.StripPrefix other no_package_prefix
                      +:+ "'."
                 else "'package " +:+ other +:+ ";'.")
            +:+ " It can only be reused by adding '"
            +:+ lookup_key Sample.file_xyz
            +:+ " = " +:+ "XYZ" +:+ "' to the expected prefixes file ("
            +:+ expected_prefixes_path Sample.registry_options +:+ ").").
Proof.
  apply (C3_registry_collision_amended Sample.fs [Sample.file_a] [Sample.file_b]
           Sample.file_xyz Sample.registry_options Sample.registry "XYZ").
  - discriminate.
  - discriminate.
  - vm_compute. reflexivity.
  - constructor; [right; vm_compute; reflexivity | constructor].
  - apply not_elem_of_nil.
  - reflexivity.
  - discriminate.
  - vm_compute. reflexivity.
  - exists "other.pkg". unfold Sample.registry. rewrite !elem_of_cons. tauto.
  - unfold Sample.registry. rewrite !elem_of_cons, elem_of_nil.
    intros [Hin | [Hin | []]]; discriminate Hin.
Defined.

(** C3, as stated, fails: two files of different packages that declare
    the same prefix "ABC", with a registry that has no entry for that
    prefix, are both valid (a warning is printed for each). *)
Lemma C3_same_prefix_counterexample :
  objc_class_prefix_field (options Sample.file_a)
    = objc_class_prefix_field (options Sample.file_b)
  /\ package Sample.file_a <> package Sample.file_b
  /\ (LoadExpectedPackagePrefixes Sample.fs "expected.txt" []).1
     = (Sample.registry, inl tt)
  /\ (ValidateObjCClassPrefixes Sample.fs [Sample.file_a; Sample.file_b]
        Sample.registry_options).1 = Valid
  /\ (ValidateObjCClassPrefixes Sample.fs [Sample.file_a; Sample.file_b]
        (mkOptions "" [] false false)) = (Valid, []).
Proof. repeat split; try discriminate; vm_compute; reflexivity. Qed.

(** C10: a file that declares an empty prefix and has no registry entry
    for its lookup key is refused when a registry path is configured and
    prefixes must be registered; the error asks for the entry to be
    added, with the empty prefix written as two double quotes. *)
Theorem C10_empty_prefix_must_be_registered (file : FileDescriptor)
    (path : string) (registry : StdMap.t) (require_prefixes : bool) :
  objc_class_prefix_field (options file) = Some "" ->
  path <> "" ->
  StdMap.find (lookup_key file) registry = None ->
  ValidateObjCClassPrefix file path registry true require_prefixes
  = (Invalid
       ("error: '" +:+ name file +:+ "' has 'option objc_class_prefix = "
        +:+ Str.dquote +:+ Str.dquote
        +:+ ";', but it is not registered. Add '"
        +:+ lookup_key file +:+ " = " +:+ Str.dquote +:+ Str.dquote
        +:+ "' to the expected prefixes file (" +:+ path +:+ ")."),
     []).
Proof.
  intros Hopt Hpath Hfind.
  rewrite <- (unregistered_error_text file path Hopt).
  by apply ValidateObjCClassPrefix_unregistered_empty.
Qed.

(** C10 on a file of the package "legacy" that declares the empty
    prefix. *)
Lemma C10_empty_prefix_must_be_registered_witness :
  ValidateObjCClassPrefix Sample.explicit_empty "expected.txt" Sample.registry
    true false
  = (Invalid
       ("error: '" +:+ name Sample.explicit_empty
        +:+ "' has 'option objc_class_prefix = "
        +:+ Str.dquote +:+ Str.dquote
        +:+ ";', but it is not registered. Add '"
        +:+ lookup_key Sample.explicit_empty +:+ " = "
        +:+ Str.dquote +:+ Str.dquote
        +:+ "' to the expected prefixes file (" +:+ "expected.txt" +:+ ")."),
     []).
Proof.
  apply (C10_empty_prefix_must_be_registered Sample.explicit_empty
           "expected.txt" Sample.registry false).
  - reflexivity.
  - discriminate.
  - vm_compute. reflexivity.
Defined.

(** * Further properties *)

(** ** Characters *)

Section CharFacts.

Implicit Types c : ascii.

Lemma tolower_of_upper c :
  Char.ascii_isupper c = true -> Char.ascii_islower (Char.ascii_tolower c) = true.
Proof. destruct c as [[] [] [] [] [] [] [] []]; vm_compute; done. Qed.

Lemma toupper_not_lower c : Char.ascii_islower (Char.ascii_toupper c) = false.
Proof. destruct c as [[] [] [] [] [] [] [] []]; vm_compute; done. Qed.

Lemma tolower_not_upper c : Char.ascii_isupper (Char.ascii_tolower c) = false.
Proof. destruct c as [[] [] [] [] [] [] [] []]; vm_compute; done. Qed.

Lemma toupper_alnum c : is_alnum c = true -> is_alnum (Char.ascii_toupper c) = true.
Proof. destruct c as [[] [] [] [] [] [] [] []]; vm_compute; done. Qed.

Lemma tolower_alnum c : is_alnum c = true -> is_alnum (Char.ascii_tolower c) = true.
Proof. destruct c as [[] [] [] [] [] [] [] []]; vm_compute; done. Qed.

Lemma separator_cases c :
  is_separator c = true ->
  Char.ascii_isdigit c = false /\ Char.ascii_islower c = false
  /\ Char.ascii_isupper c = false.
Proof.
  unfold is_separator, is_alnum.
  destruct (Char.ascii_isdigit c), (Char.ascii_islower c), (Char.ascii_isupper c);
    done.
Qed.

End CharFacts.

Section AllChars.

Implicit Types (p : ascii -> bool) (s t : string).

Lemma all_chars_append p s t :
  all_chars p (s +:+ t) = all_chars p s && all_chars p t.
Proof.
  induction s as [|c s IH]; [done|].
  rewrite append_cons. cbn. by rewrite IH, andb_assoc.
Qed.

Lemma all_chars_impl p (q : ascii -> bool) s :
  (forall c, p c = true -> q c = true) ->
  all_chars p s = true -> all_chars q s = true.
Proof.
  intros Hpq. induction s as [|c s IH]; [done|]. cbn.
  intros [Hc Hs]%andb_prop. by rewrite (Hpq c Hc), IH.
Qed.

Lemma all_chars_map p (f : ascii -> ascii) s :
  (forall c, p c = true -> p (f c) = true) ->
  all_chars p s = true -> all_chars p (Str.map f s) = true.
Proof.
  intros Hf. induction s as [|c s IH]; [done|]. cbn.
  intros [Hc Hs]%andb_prop. by rewrite (Hf c Hc), IH.
Qed.

Lemma fold_append {A : Type} (f : A -> ascii -> A) s t (a : A) :
  Str.fold f (s +:+ t) a = Str.fold f t (Str.fold f s a).
Proof.
  revert a. induction s as [|c s IH]; intros a; [done|].
  rewrite append_cons. cbn. apply IH.
Qed.

End AllChars.

(** ** The camel-case conversion: separators and alphabet *)

Section ScanFacts.

Implicit Types (st : Scan) (c : ascii) (s seps : string).

Lemma scan_separator st c :
  is_separator c = true ->
  scan_char st c = mkScan (values st) (current st) false false false.
Proof.
  intros (Hd & Hl & Hu)%separator_cases. unfold scan_char. by rewrite Hd, Hl, Hu.
Qed.

(** A run of separators only clears the three flags. *)
Lemma scan_separators st seps :
  seps <> "" ->
  all_chars is_separator seps = true ->
  Str.fold scan_char seps st = mkScan (values st) (current st) false false false.
Proof.
  revert st. induction seps as [|c seps IH]; intros st Hne Hall; [done|].
  cbn in Hall. apply andb_prop in Hall as [Hc Hseps]. cbn.
  rewrite (scan_separator st c Hc).
  destruct seps as [|d seps]; [done|]. by rewrite IH.
Qed.

Lemma scan_separators_init seps :
  all_chars is_separator seps = true ->
  Str.fold scan_char seps scan_init = scan_init.
Proof.
  intros Hall. destruct seps as [|c seps]; [done|]. by rewrite scan_separators.
Qed.

(** What [segments] reads of the final state does not include the
    flags. *)
Lemma segments_append s seps :
  all_chars is_separator seps = true ->
  segments (s +:+ seps) = segments s.
Proof.
  intros Hall. unfold segments. rewrite fold_append.
  destruct seps as [|c seps]; [done|]. by rewrite scan_separators.
Qed.

End ScanFacts.

(** X1: separator characters (anything but ASCII letters and digits)
    only separate.  A non-empty run of them between two parts of the
    input has the effect of a single underscore, and a run at the start
    or at the end of the input has no effect. *)
Theorem camel_case_separators (x y seps : string) (first_capitalized : bool) :
  seps <> "" ->
  all_chars is_separator seps = true ->
  UnderscoresToCamelCase (x +:+ seps +:+ y) first_capitalized
    = UnderscoresToCamelCase (x +:+ "_" +:+ y) first_capitalized
  /\ UnderscoresToCamelCase (seps +:+ y) first_capitalized
     = UnderscoresToCamelCase y first_capitalized
  /\ UnderscoresToCamelCase (x +:+ seps) first_capitalized
     = UnderscoresToCamelCase x first_capitalized.
Proof.
  intros Hne Hall. unfold UnderscoresToCamelCase. repeat split; f_equal.
  - unfold segments. rewrite !fold_append.
    rewrite (scan_separators _ seps Hne Hall).
    by rewrite (scan_separators _ "_").
  - unfold segments. by rewrite fold_append, scan_separators_init.
  - by apply segments_append.
Qed.

(** X1 on the field name "foo", written with dots and spaces around
    it. *)
Lemma camel_case_separators_witness :
  UnderscoresToCamelCase ("my" +:+ ". -" +:+ "foo") false
    = UnderscoresToCamelCase ("my" +:+ "_" +:+ "foo") false
  /\ UnderscoresToCamelCase (". -" +:+ "foo") false
     = UnderscoresToCamelCase "foo" false
  /\ UnderscoresToCamelCase ("my" +:+ ". -") false
     = UnderscoresToCamelCase "my" false.
Proof.
  apply (camel_case_separators "my" "foo" ". -" false); [discriminate | reflexivity].
Defined.

Section CamelAlphabet.

Implicit Types (st : Scan) (c : ascii) (value result : string).

Lemma fold_left_invariant {A B : Type} (f : A -> B -> A) (P : A -> Prop)
    (Q : B -> Prop) (l : list B) (a : A) :
  P a -> Forall Q l -> (forall a b, P a -> Q b -> P (f a b)) ->
  P (fold_left f l a).
Proof.
  intros Ha Hl Hf. revert a Ha.
  induction Hl as [|b l Hb _ IH]; intros a Ha; [done|].
  cbn. apply IH, Hf; done.
Qed.

Lemma fold_invariant {A : Type} (f : A -> ascii -> A) (P : A -> Prop)
    (s : string) (a : A) :
  P a -> (forall a c, P a -> P (f a c)) -> P (Str.fold f s a).
Proof.
  intros Ha Hf. revert a Ha.
  induction s as [|c s IH]; intros a Ha; [done|]. cbn. by apply IH, Hf.
Qed.

Lemma push_back_ok value c :
  all_chars is_lower_or_digit value = true ->
  is_lower_or_digit c = true ->
  all_chars is_lower_or_digit (Str.push_back value c) = true.
Proof.
  intros Hv Hc. unfold Str.push_back. rewrite all_chars_append, Hv. cbn.
  by rewrite Hc.
Qed.

Lemma scan_char_ok st c : scan_ok st -> scan_ok (scan_char st c).
Proof.
  intros [Hvalues Hcurrent].
  assert (Forall (λ value, all_chars is_lower_or_digit value = true)
            (values st ++ [current st])) as Hpushed.
  { apply Forall_app. split; [done|]. by constructor. }
  unfold scan_char, scan_ok.
  destruct (Char.ascii_isdigit c) eqn:Hd;
    [|destruct (Char.ascii_islower c) eqn:Hl;
      [|destruct (Char.ascii_isupper c) eqn:Hu]].
  - destruct (negb _); cbn; (split; [done|]);
      apply push_back_ok; try done; unfold is_lower_or_digit; by rewrite Hd.
  - destruct (negb _ && negb _); cbn; (split; [done|]);
      apply push_back_ok; try done; unfold is_lower_or_digit;
      by rewrite Hl, orb_true_r.
  - destruct (negb _); cbn; (split; [done|]);
      apply push_back_ok; try done; unfold is_lower_or_digit;
      by rewrite tolower_of_upper, orb_true_r.
  - done.
Qed.

(** Every segment consists of lowercase letters and digits. *)
Lemma segments_ok (input : string) :
  Forall (λ value, all_chars is_lower_or_digit value = true) (segments input).
Proof.
  unfold segments.
  destruct (fold_invariant scan_char scan_ok input scan_init) as [Hv Hc].
  - split; [constructor | done].
  - intros st c. apply scan_char_ok.
  - apply Forall_app. split; [done|]. by constructor.
Qed.

Lemma lower_or_digit_alnum c : is_lower_or_digit c = true -> is_alnum c = true.
Proof.
  unfold is_lower_or_digit, is_alnum. intros ->. done.
Qed.

Lemma capitalize_alnum (all_upper : bool) value :
  all_chars is_lower_or_digit value = true ->
  all_chars is_alnum (capitalize all_upper value) = true.
Proof.
  intros Hv%(all_chars_impl _ is_alnum _ lower_or_digit_alnum).
  destruct value as [|c rest]; [done|]. cbn in *.
  apply andb_prop in Hv as [Hc Hrest]. rewrite (toupper_alnum c Hc). cbn.
  destruct all_upper; [|done]. apply all_chars_map; [apply toupper_alnum | done].
Qed.

Lemma join_segments_alnum (vals : list string) (first_capitalized : bool) :
  Forall (λ value, all_chars is_lower_or_digit value = true) vals ->
  all_chars is_alnum (join_segments vals first_capitalized) = true.
Proof.
  intros Hvals. unfold join_segments.
  pose proof (fold_left_invariant join_value
                (λ acc, all_chars is_alnum acc.1 = true) _ vals ("", false)
                eq_refl Hvals) as Hfold.
  destruct (fold_left join_value vals ("", false)) as [result flag]. cbn in Hfold.
  assert (all_chars is_alnum result = true) as Hresult.
  { apply Hfold. intros [r b] value Hr Hvalue. cbn in *.
    by rewrite all_chars_append, Hr, capitalize_alnum. }
  destruct result as [|c rest]; [done|].
  destruct (negb _ && negb _); [|done]. cbn in *.
  apply andb_prop in Hresult as [Hc Hrest]. by rewrite tolower_alnum.
Qed.

Lemma alnum_not_reserved (s : string) :
  all_chars is_alnum s = true -> IsReservedCIdentifier s = false.
Proof.
  unfold IsReservedCIdentifier. case_bool_decide; [|done].
  destruct s as [|c s]; [done|]. cbn. intros [Hc _]%andb_prop.
  destruct (Ascii.eqb_spec c "_") as [-> | Hne]; [|done]. done.
Qed.

Lemma at_append_0 (s t : string) :
  Str.at_ (s +:+ t) 0 = if Str.empty s then Str.at_ t 0 else Str.at_ s 0.
Proof. by destruct s. Qed.

Lemma capitalize_first (all_upper : bool) value :
  Char.ascii_islower (Str.at_ (capitalize all_upper value) 0) = false.
Proof. destruct value as [|c rest]; [done|]. apply toupper_not_lower. Qed.

End CamelAlphabet.

(** X2: whatever the input, the camel-cased name holds ASCII letters and
    digits only; in particular it holds no underscore and is never a
    reserved C identifier. *)
Theorem camel_case_alphanumeric (input : string) (first_capitalized : bool) :
  all_chars is_alnum (UnderscoresToCamelCase input first_capitalized) = true
  /\ IsReservedCIdentifier (UnderscoresToCamelCase input first_capitalized) = false.
Proof.
  assert (all_chars is_alnum (UnderscoresToCamelCase input first_capitalized) = true)
    as Halnum by apply join_segments_alnum, segments_ok.
  split; [done | by apply alnum_not_reserved].
Qed.

Lemma join_capitalized (vals : list string) :
  Char.ascii_islower (Str.at_ (join_segments vals true) 0) = false.
Proof.
  unfold join_segments.
  pose proof (fold_left_invariant join_value
                (λ acc, Char.ascii_islower (Str.at_ acc.1 0) = false)
                (λ _, True) vals ("", false) eq_refl) as Hfold.
  destruct (fold_left join_value vals ("", false)) as [result flag].
  cbn in Hfold.
  assert (Char.ascii_islower (Str.at_ result 0) = false) as Hresult.
  { apply Hfold; [by apply Forall_forall|].
    intros [r b] value Hr _. unfold join_value. cbn [fst] in *.
    rewrite at_append_0.
    destruct (Str.empty r); [apply capitalize_first | done]. }
  by destruct result.
Qed.

(** X3: with [first_capitalized] the camel-cased name never starts with
    a lowercase letter. *)
Theorem camel_case_capitalized (input : string) :
  Char.ascii_islower (Str.at_ (UnderscoresToCamelCase input true) 0) = false.
Proof. apply join_capitalized. Qed.

Lemma upper_segment_cases (value : string) :
  value ∈ kUpperSegments -> value = "url" \/ value = "http" \/ value = "https".
Proof.
  unfold kUpperSegments, MakeWordsMap, kUpperSegmentsList.
  rewrite elem_of_list_to_set, !elem_of_cons, elem_of_nil. tauto.
Qed.

Lemma join_value_ok (acc : string * bool) (value : string) :
  join_ok acc -> join_ok (join_value acc value).
Proof.
  destruct acc as [result flag]. unfold join_ok, join_value. cbn [fst snd].
  intros Hacc. case_bool_decide as Hupper; cbn [andb].
  - destruct result as [|c rest]; cbn [Str.empty].
    + intros _. rewrite append_nil.
      destruct (upper_segment_cases value Hupper) as [-> | [-> | ->]];
        [by left | by right | by right].
    + intros Hflag. destruct (Hacc Hflag) as [H | H];
        [left | right]; by apply StartsWith_append_l.
  - intros Hflag. destruct (Hacc Hflag) as [H | H];
      [left | right]; by apply StartsWith_append_l.
Qed.

(** X4: without [first_capitalized] the camel-cased name starts with an
    uppercase letter only when its first segment is one of the acronyms,
    which is then upper-cased as a whole: the name starts with "URL" or
    with "HTTP". *)
Theorem camel_case_uncapitalized (input : string) :
  Char.ascii_isupper (Str.at_ (UnderscoresToCamelCase input false) 0) = true ->
  Str.StartsWith (UnderscoresToCamelCase input false) "URL" = true
  \/ Str.StartsWith (UnderscoresToCamelCase input false) "HTTP" = true.
Proof.
  unfold UnderscoresToCamelCase, join_segments.
  pose proof (fold_left_invariant join_value join_ok (λ _, True)
                (segments input) ("", false)) as Hfold.
  destruct (fold_left join_value (segments input) ("", false)) as [result flag].
  assert (join_ok (result, flag)) as Hok.
  { apply Hfold; [done | by apply Forall_forall |].
    intros acc value Hacc _. by apply join_value_ok. }
  destruct result as [|c rest]; [done|]. destruct flag; cbn [negb andb].
  - intros _. by apply Hok.
  - unfold Str.at_. cbn. by rewrite tolower_not_upper.
Qed.

(** X4 on a field whose name starts with the acronym "url". *)
Lemma camel_case_uncapitalized_witness :
  Str.StartsWith (UnderscoresToCamelCase "url_of_page" false) "URL" = true
  \/ Str.StartsWith (UnderscoresToCamelCase "url_of_page" false) "HTTP" = true.
Proof. apply (camel_case_uncapitalized "url_of_page"). vm_compute. reflexivity. Defined.

(** ** The sanitizer: what it adds and what it cannot meet *)

Section SanitizerShape.

Variable kNSObjectMethodsList : list string.
Implicit Types prefix input extension name : string.

Lemma drop_append name extension :
  StrView.drop (String.length name) (name +:+ extension) = extension.
Proof. induction name as [|c name IH]; [done|]. exact IH. Qed.

Lemma EndsWith_append name extension : EndsWith (name +:+ extension) extension = true.
Proof.
  unfold EndsWith. rewrite length_append.
  rewrite bool_decide_eq_true_2 by lia.
  replace (String.length name + String.length extension - String.length extension)
    with (String.length name) by lia.
  rewrite drop_append. apply String.eqb_refl.
Qed.

(** A word of a list is no reserved word when a test that every word of
    the list passes fails on it. *)
Lemma not_in_words (test : string -> bool) (words : list string) name :
  forallb test words = true -> test name = false -> name ∉ MakeWordsMap words.
Proof.
  intros Hall Hname Hin. unfold MakeWordsMap in Hin.
  apply elem_of_list_to_set, list_elem_of_In in Hin.
  rewrite forallb_forall in Hall. apply Hall in Hin. congruence.
Qed.

Lemma sanitized_shape prefix input :
  exists front, (front = "" \/ front = prefix)
                /\ sanitized prefix input = front +:+ input.
Proof.
  rewrite sanitized_cases. destruct (judged_prefixed prefix input).
  - exists "". split; [by left | done].
  - exists prefix. split; [by right | done].
Qed.

End SanitizerShape.

(** X5: the sanitizer only adds.  Its result is the input with the
    prefix or nothing in front and the reported suffix behind, the
    reported suffix is the extension or empty, and so the result is never
    shorter than the input. *)
Theorem sanitizer_only_adds (kNSObjectMethodsList : list string)
    (prefix input extension : string) :
  let r := SanitizeNameForObjC kNSObjectMethodsList prefix input extension in
  exists front,
    (front = "" \/ front = prefix)
    /\ (r.2 = "" \/ r.2 = extension)
    /\ r.1 = front +:+ input +:+ r.2
    /\ String.length input <= String.length r.1.
Proof.
  intros r. destruct (sanitized_shape prefix input) as (front & Hfront & Hshape).
  exists front. split; [done|]. subst r. unfold SanitizeNameForObjC.
  destruct (needs_extension _ _); cbn [fst snd]; rewrite Hshape.
  - split; [by right|]. split; [by rewrite append_assoc|].
    rewrite !length_append. lia.
  - split; [by left|]. split; [by rewrite append_empty_r|].
    rewrite !length_append. lia.
Qed.

(** ** The prefix resolution does not depend on what was resolved before *)

Section Stability.

Variable fs : FileSystem.
Implicit Types (w : World) (s : PrefixModeStorage) (file : FileDescriptor).

Lemma StdMap_empty_nil (m : StdMap.t) : StdMap.empty m = true <-> m = [].
Proof. by destruct m. Qed.

Lemma with_map_same s : with_package_to_prefix_map (package_to_prefix_map_ s) s = s.
Proof. by destruct s. Qed.

Lemma with_exceptions_same s : with_exceptions (exceptions_ s) s = s.
Proof. by destruct s. Qed.

(** What a lookup in the mapping returns and leaves behind. *)
Lemma mappings_run file w :
  (prefix_from_proto_package_mappings fs (Some file) w).1
    = default "" (StdMap.find (lookup_key file) (loaded_map fs (g_prefix_mode w)))
  /\ g_prefix_mode (prefix_from_proto_package_mappings fs (Some file) w).2
     = with_package_to_prefix_map (loaded_map fs (g_prefix_mode w)) (g_prefix_mode w).
Proof.
  unfold prefix_from_proto_package_mappings, loaded_map. run_m.
  destruct (StdMap.empty _ && _); cbn.
  - destruct (ParseSimpleFile _ _ _ _) as [m [[]|err]]; cbn; split; try done;
      by destruct (StdMap.find _ _).
  - rewrite with_map_same. split; [|done]. by destruct (StdMap.find _ _).
Qed.

(** What an exemption test returns and leaves behind. *)
Lemma exempted_run (package : string) w :
  (is_package_exempted fs package w).1
    = bool_decide (package ∈ loaded_exceptions fs (g_prefix_mode w))
  /\ g_prefix_mode (is_package_exempted fs package w).2
     = with_exceptions (loaded_exceptions fs (g_prefix_mode w)) (g_prefix_mode w).
Proof.
  unfold is_package_exempted, loaded_exceptions. run_m.
  destruct (bool_decide _ && _); cbn.
  - destruct (ParseSimpleFile _ _ _ _) as [e [[]|err]]; cbn;
      case_bool_decide; cbn; done.
  - by rewrite with_exceptions_same.
Qed.

Lemma loaded_map_again s :
  loaded_map fs (with_package_to_prefix_map (loaded_map fs s) s) = loaded_map fs s.
Proof.
  assert (loaded_map fs s = package_to_prefix_map_ s
          \/ (package_to_prefix_map_ s = []
              /\ Str.empty (package_to_prefix_mappings_path_ s) = false))
    as [Hsame | [Hnil Hpath]].
  { unfold loaded_map.
    destruct (StdMap.empty _) eqn:Hempty; [|by left].
    destruct (Str.empty _); [by left | right].
    by apply StdMap_empty_nil in Hempty. }
  - by rewrite Hsame, with_map_same.
  - unfold loaded_map. cbn. rewrite Hnil, Hpath. cbn.
    destruct (ParseSimpleFile _ _ _ _) as [m [[]|err]] eqn:Hparse.
    + destruct m as [|entry m]; [|done]. cbn. by rewrite Hparse.
    + cbn. by rewrite Hparse.
Qed.

Lemma loaded_exceptions_again s :
  loaded_exceptions fs (with_exceptions (loaded_exceptions fs s) s)
  = loaded_exceptions fs s.
Proof.
  assert (loaded_exceptions fs s = exceptions_ s \/ loaded_exceptions fs s <> ∅)
    as [Hsame | Hfull].
  { unfold loaded_exceptions.
    destruct (bool_decide _ && _); [right | by left].
    destruct (ParseSimpleFile _ _ _ _) as [e [[]|err]]; cbn;
      case_bool_decide; try done; set_solver. }
  - by rewrite Hsame, with_exceptions_same.
  - unfold loaded_exceptions at 1. cbn.
    by rewrite bool_decide_eq_false_2.
Qed.

Lemma same_config_refl s : same_config fs s s.
Proof. done. Qed.

Lemma same_config_trans s1 s2 s3 :
  same_config fs s1 s2 -> same_config fs s2 s3 -> same_config fs s1 s3.
Proof.
  intros (? & ? & ? & ?) (? & ? & ? & ?). repeat split; congruence.
Qed.

Lemma same_config_map s :
  same_config fs s (with_package_to_prefix_map (loaded_map fs s) s).
Proof. repeat split; try done. apply loaded_map_again. Qed.

Lemma same_config_exceptions s :
  same_config fs s (with_exceptions (loaded_exceptions fs s) s).
Proof. repeat split; try done. apply loaded_exceptions_again. Qed.

Lemma resolved_prefix_same_config s s' file :
  same_config fs s s' -> resolved_prefix fs s' file = resolved_prefix fs s file.
Proof.
  intros (Huse & Hforced & Hmap & Hexc). unfold resolved_prefix.
  by rewrite Huse, Hforced, Hmap, Hexc.
Qed.

(** The prefix a call returns is the resolved one, and the call leaves a
    storage that resolves every file as before. *)
Lemma FileClassPrefix_run file w :
  (FileClassPrefix fs file w).1 = resolved_prefix fs (g_prefix_mode w) file
  /\ same_config fs (g_prefix_mode w) (g_prefix_mode (FileClassPrefix fs file w).2).
Proof.
  unfold FileClassPrefix, resolved_prefix.
  destruct (has_objc_class_prefix (options file)); [done|].
  destruct (mappings_run file w) as [Hmapped Hs1].
  rewrite bind_run, Hmapped.
  destruct (negb (Str.empty _)); cbn.
  { split; [done|]. rewrite Hs1. apply same_config_map. }
  rewrite Hs1. cbn.
  destruct (negb (use_package_name_ (g_prefix_mode w))); cbn.
  { split; [done|]. rewrite Hs1. apply same_config_map. }
  destruct (exempted_run (package file)
              (prefix_from_proto_package_mappings fs (Some file) w).2)
    as [Hex Hs2].
  rewrite Hs1 in Hex, Hs2.
  assert (same_config fs (g_prefix_mode w)
            (with_exceptions
               (loaded_exceptions fs
                  (with_package_to_prefix_map (loaded_map fs (g_prefix_mode w))
                     (g_prefix_mode w)))
               (with_package_to_prefix_map (loaded_map fs (g_prefix_mode w))
                  (g_prefix_mode w)))) as Hsame.
  { eapply same_config_trans; [apply same_config_map | apply same_config_exceptions]. }
  rewrite bind_run, Hex. cbn.
  destruct (bool_decide _); cbn; rewrite Hs2; done.
Qed.

Lemma for_each_same_config (files : list FileDescriptor) w :
  same_config fs (g_prefix_mode w)
    (g_prefix_mode (for_each (FileClassPrefix fs) files w).2).
Proof.
  revert w. induction files as [|f files IH]; intros w; [done|].
  cbn. rewrite !bind_run. cbn.
  eapply same_config_trans; [apply FileClassPrefix_run | apply IH].
Qed.

End Stability.

(** X6: the prefix of a file does not depend on the files resolved
    before it: after the prefixes of any list of files have been
    resolved, whatever they loaded or failed to load, a file gets the
    prefix it would have got first. *)
Theorem FileClassPrefix_order_independent (fs : FileSystem)
    (files : list FileDescriptor) (file : FileDescriptor) (w : World) :
  (FileClassPrefix fs file (for_each (FileClassPrefix fs) files w).2).1
  = (FileClassPrefix fs file w).1.
Proof.
  destruct (FileClassPrefix_run fs file w) as [-> _].
  destruct (FileClassPrefix_run fs file (for_each (FileClassPrefix fs) files w).2)
    as [-> _].
  apply resolved_prefix_same_config, for_each_same_config.
Qed.

(** ** The sources of a prefix, one by one *)

Section Sources.

Variable fs : FileSystem.
Implicit Types (w : World) (file : FileDescriptor).

(** With a cached mapping a lookup reads nothing and changes nothing. *)
Lemma mappings_cached file w :
  package_to_prefix_map_ (g_prefix_mode w) <> [] ->
  prefix_from_proto_package_mappings fs (Some file) w
  = (default "" (StdMap.find (lookup_key file)
                   (package_to_prefix_map_ (g_prefix_mode w))), w).
Proof.
  intros Hmap. unfold prefix_from_proto_package_mappings. run_m.
  destruct (package_to_prefix_map_ (g_prefix_mode w)) as [|entry m] eqn:Hm; [done|].
  cbn. destruct w. cbn in *. rewrite Hm. reflexivity.
Qed.

Lemma no_option file :
  objc_class_prefix_field (options file) = None ->
  has_objc_class_prefix (options file) = false.
Proof.
  intros H. unfold has_objc_class_prefix. rewrite H.
  apply bool_decide_eq_false_2. by intros [? ?].
Qed.

End Sources.

(** X7: for a file without the option, a non-empty prefix that the cached
    mapping gives to the file's lookup key is the prefix of the file,
    whatever the toggle, the exemptions and the forced prefix are, and
    nothing is read or changed. *)
Theorem mapped_prefix_wins (fs : FileSystem) (file : FileDescriptor) (w : World)
    (prefix : string) :
  objc_class_prefix_field (options file) = None ->
  StdMap.find (lookup_key file) (package_to_prefix_map_ (g_prefix_mode w))
    = Some prefix ->
  prefix <> "" ->
  FileClassPrefix fs file w = (prefix, w).
Proof.
  intros Hopt Hfind Hprefix%empty_false. unfold FileClassPrefix.
  rewrite (no_option file Hopt), bind_run, mappings_cached.
  - cbn. rewrite Hfind. cbn. by rewrite Hprefix.
  - intros Hnil. by rewrite Hnil in Hfind.
Qed.

(** X7 on the package "foo.bar_baz", mapped to "FBB" while the package
    is also used as the default prefix. *)
Lemma mapped_prefix_wins_witness :
  FileClassPrefix Sample.fs Sample.foo_bar_baz Demo.cached = ("FBB", Demo.cached).
Proof.
  apply (mapped_prefix_wins Sample.fs Sample.foo_bar_baz Demo.cached "FBB");
    [reflexivity | reflexivity | discriminate].
Defined.

(** X8: an entry of the mapping with an empty prefix counts as no entry.
    With the package used as the default prefix and a package that the
    exemption test does not exempt, the file still gets the forced prefix
    followed by the prefix derived from the package; the state is the one
    the exemption test leaves. *)
Theorem empty_mapped_prefix_ignored (fs : FileSystem) (file : FileDescriptor)
    (w : World) :
  objc_class_prefix_field (options file) = None ->
  StdMap.find (lookup_key file) (package_to_prefix_map_ (g_prefix_mode w))
    = Some "" ->
  use_package_name_ (g_prefix_mode w) = true ->
  (is_package_exempted fs (package file) w).1 = false ->
  FileClassPrefix fs file w
  = (forced_prefix_ (g_prefix_mode w) +:+ package_prefix (package file),
     (is_package_exempted fs (package file) w).2).
Proof.
  intros Hopt Hfind Huse Hex. unfold FileClassPrefix.
  destruct (exempted_frame fs (package file) w) as (_ & Hforced & _).
  rewrite (no_option file Hopt), bind_run, mappings_cached.
  - cbn. rewrite Hfind. cbn. rewrite Huse. cbn. rewrite bind_run, Hex. cbn.
    by rewrite Hforced.
  - intros Hnil. by rewrite Hnil in Hfind.
Qed.

(** X8 on the package "quiet", which the mapping file that was read
    gives an empty prefix, with no exemption file configured. *)
Lemma empty_mapped_prefix_ignored_witness :
  FileClassPrefix Demo.fs Demo.quiet Demo.loaded
  = (forced_prefix_ (g_prefix_mode Demo.loaded) +:+ package_prefix (package Demo.quiet),
     (is_package_exempted Demo.fs (package Demo.quiet) Demo.loaded).2)
  /\ StdMap.find "quiet" (package_to_prefix_map_ (g_prefix_mode Demo.loaded)) = Some ""
  /\ (FileClassPrefix Demo.fs Demo.quiet Demo.loaded).1 = "GPBQuiet_".
Proof.
  split; [|split; vm_compute; reflexivity].
  apply (empty_mapped_prefix_ignored Demo.fs Demo.quiet Demo.loaded);
    vm_compute; reflexivity.
Defined.

(** X9: when the package is not used as the default prefix, a file
    without the option and without a prefix from the mapping gets the
    empty prefix; the forced prefix and the exemptions play no part and
    the exemption file is not read. *)
Theorem no_default_prefix (fs : FileSystem) (file : FileDescriptor) (w : World) :
  objc_class_prefix_field (options file) = None ->
  use_package_name_ (g_prefix_mode w) = false ->
  (prefix_from_proto_package_mappings fs (Some file) w).1 = "" ->
  FileClassPrefix fs file w
  = ("", (prefix_from_proto_package_mappings fs (Some file) w).2).
Proof.
  intros Hopt Huse Hmap. unfold FileClassPrefix.
  rewrite (no_option file Hopt), bind_run, Hmap. cbn.
  destruct (mappings_frame fs (Some file) w) as (Hu & _).
  by rewrite Hu, Huse.
Qed.

(** X9 on a file of the package "foo.bar_baz" with nothing configured. *)
Lemma no_default_prefix_witness :
  FileClassPrefix Sample.fs Sample.foo_bar_baz Sample.unconfigured
  = ("", Sample.unconfigured).
Proof.
  apply (no_default_prefix Sample.fs Sample.foo_bar_baz Sample.unconfigured);
    reflexivity.
Defined.

(** ** Files that are read once *)

Section ReadOnce.

Variable fs : FileSystem.
Implicit Types (w : World) (lines : list string) (m : StdMap.t).

Lemma assign_not_nil (k v : string) m : StdMap.assign k v m <> [].
Proof. destruct m as [|[k' v'] m]; [done|]. cbn. by destruct (String.compare k k'). Qed.

(** Lines that all hold an equal sign are all accepted, and leave a
    mapping that is not empty unless there was no line and no entry. *)
Lemma consume_lines_accepted (path usage_ : string)
    (line_error : string -> nat -> string -> string) lines (line_no : nat) m :
  Forall (λ line, StrView.find "=" line <> None) lines ->
  exists m',
    consume_lines path line_error (PackageToPrefixesCollector usage_) lines line_no m
    = (m', inl tt)
    /\ (lines <> [] \/ m <> [] -> m' <> []).
Proof.
  intros Hlines. revert line_no m.
  induction Hlines as [|line lines Hline _ IH]; intros line_no m.
  - exists m. split; [done|]. by intros [? | ?].
  - cbn. unfold PackageToPrefixesCollector at 1.
    destruct (StrView.find "=" line) as [offset|]; [|done].
    destruct (IH (S line_no)
                (StdMap.assign
                   (StrView.StripAsciiWhitespace (String.substring 0 offset line))
                   (StrView.MaybeUnQuote
                      (StrView.StripAsciiWhitespace
                         (StrView.drop (offset + 1) line))) m))
      as (m' & -> & Hm').
    exists m'. split; [done|]. intros _. apply Hm'. right. apply assign_not_nil.
Qed.

Lemma for_each_unchanged {A B : Type} (f : A -> M B) (l : list A) w :
  (forall a, (f a w).2 = w) -> (for_each f l w).2 = w.
Proof.
  intros Hf. induction l as [|a l IH]; [done|].
  cbn. rewrite !bind_run. cbn. by rewrite Hf.
Qed.

End ReadOnce.

(** X10: a mapping file with at least one line, all lines with an equal
    sign, is read by the first lookup and never again: the first lookup
    reads it and prints nothing, and no later lookup, for whatever files,
    reads, prints or changes anything. *)
Theorem mapping_file_read_once (fs : FileSystem) (file : FileDescriptor)
    (files : list FileDescriptor) (lines : list string) (w : World) :
  let path := package_to_prefix_mappings_path_ (g_prefix_mode w) in
  let w1 := (prefix_from_proto_package_mappings fs (Some file) w).2 in
  package_to_prefix_map_ (g_prefix_mode w) = [] ->
  path <> "" ->
  read_lines fs path = Some lines ->
  lines <> [] ->
  Forall (λ line, StrView.find "=" line <> None) lines ->
  trace w1 = trace w ++ [ReadFile path]
  /\ (for_each (λ f, prefix_from_proto_package_mappings fs (Some f)) files w1).2 = w1.
Proof.
  intros path w1 Hmap Hpath%empty_false Hread Hne Hlines.
  destruct (consume_lines_accepted path "Package to prefixes" (line_error fs)
              lines 1 [] Hlines) as (m & Hconsume & Hm).
  assert (w1 = mkWorld (with_package_to_prefix_map m (g_prefix_mode w))
                       (trace w ++ [ReadFile path])) as Hw1.
  { subst w1 path. unfold prefix_from_proto_package_mappings, ParseSimpleFile. run_m.
    by rewrite Hmap, Hpath, Hread, Hconsume. }
  rewrite Hw1. split; [done|].
  apply for_each_unchanged. intros f. rewrite mappings_cached; [done|].
  cbn. apply Hm. by left.
Qed.

(** X10 on the mapping file of one entry. *)
Lemma mapping_file_read_once_witness :
  let w1 := (prefix_from_proto_package_mappings Sample.fs (Some Sample.foo_bar_baz)
               Sample.configured).2 in
  trace w1 = trace Sample.configured ++ [ReadFile "mappings.txt"]
  /\ (for_each (λ f, prefix_from_proto_package_mappings Sample.fs (Some f))
        [Demo.quiet; Sample.foo_bar_baz] w1).2 = w1.
Proof.
  apply (mapping_file_read_once Sample.fs Sample.foo_bar_baz
           [Demo.quiet; Sample.foo_bar_baz] ["foo.bar_baz = FBB"] Sample.configured).
  - reflexivity.
  - discriminate.
  - reflexivity.
  - discriminate.
  - constructor; [vm_compute; discriminate | constructor].
Defined.

(** X11: with an exemption file configured, the first exemption test
    settles the set: no later test, for whatever packages, reads the
    file, prints a warning or changes the storage, also when the file
    could not be read or was empty. *)
Theorem exemption_file_read_once (fs : FileSystem) (package : string)
    (packages : list string) (w : World) :
  exception_path_ (g_prefix_mode w) <> "" ->
  let w1 := (is_package_exempted fs package w).2 in
  (for_each (is_package_exempted fs) packages w1).2 = w1.
Proof.
  intros Hpath w1. apply for_each_unchanged. intros p.
  by apply exemptions_not_reloaded, exemptions_marked.
Qed.

(** X11 on an exemption file that cannot be opened. *)
Lemma exemption_file_read_once_witness :
  let w1 := (is_package_exempted Sample.fs "legacy" Sample.missing_exceptions).2 in
  (for_each (is_package_exempted Sample.fs) ["legacy"; "foo.bar_baz"] w1).2 = w1.
Proof.
  apply (exemption_file_read_once Sample.fs "legacy" ["legacy"; "foo.bar_baz"]
           Sample.missing_exceptions).
  discriminate.
Defined.

(** ** The batch validation *)

Section BatchFacts.

Implicit Types (files : list FileDescriptor) (registry : StdMap.t).
Implicit Types (generation_options : Options) (events : list Event).

(** A valid batch holds passing files only. *)
Lemma validate_files_valid generation_options registry files events :
  (validate_files files generation_options registry events).1 = Valid ->
  Forall (passes generation_options registry) files.
Proof.
  revert events. induction files as [|f files IH]; intros events; [constructor|].
  cbn. case_bool_decide as Hskip.
  - intros H. constructor; [by left | by eapply IH].
  - destruct (ValidateObjCClassPrefix f _ _ _ _) as [[|e] printed] eqn:Hf;
      cbn; [|done].
    intros H. constructor; [|by eapply IH]. right. by rewrite Hf.
Qed.

(** Suppressed files can be left out of the batch. *)
Lemma validate_files_filter generation_options registry files events :
  validate_files files generation_options registry events
  = validate_files
      (filter (λ f, name f ∉ expected_prefixes_suppressions generation_options) files)
      generation_options registry events.
Proof.
  revert events. induction files as [|f files IH]; intros events; [done|].
  rewrite filter_cons. cbn [validate_files]. case_bool_decide as Hskip.
  - rewrite decide_False by (intros H; by apply H). apply IH.
  - rewrite decide_True by done. cbn [validate_files].
    rewrite bool_decide_eq_false_2 by done.
    destruct (ValidateObjCClassPrefix f _ _ _ _) as [[|e] printed]; [apply IH | done].
Qed.

(** Without a registry file and without required prefixes a file is
    valid, and all that is printed are the style warnings. *)
Lemma ValidateObjCClassPrefix_unchecked (file : FileDescriptor)
    (prefixes_must_be_registered : bool) :
  ValidateObjCClassPrefix file "" [] prefixes_must_be_registered false
  = (Valid, if has_objc_class_prefix (options file)
            then style_warnings file else []).
Proof.
  unfold ValidateObjCClassPrefix. cbn.
  destruct (has_objc_class_prefix (options file)); cbn; [|done].
  by rewrite andb_false_r.
Qed.

Lemma validate_files_events generation_options registry files events
    (P : Event -> Prop) :
  Forall P events ->
  (forall file, Forall P (ValidateObjCClassPrefix file
                            (expected_prefixes_path generation_options) registry
                            (prefixes_must_be_registered generation_options)
                            (require_prefixes generation_options)).2) ->
  Forall P (validate_files files generation_options registry events).2.
Proof.
  intros Hevents Hfile. revert events Hevents.
  induction files as [|f files IH]; intros events Hevents; [done|].
  cbn. case_bool_decide; [by apply IH|].
  specialize (Hfile f).
  destruct (ValidateObjCClassPrefix f _ _ _ _) as [[|e] printed]; cbn in *.
  - apply IH. by apply Forall_app.
  - by apply Forall_app.
Qed.

End BatchFacts.

(** X12: once the registry is loaded, a batch is valid exactly when each
    of its files is suppressed or valid on its own against the registry:
    the verdict on a file never depends on the other files. *)
Theorem batch_valid_iff_each_file (fs : FileSystem) (files : list FileDescriptor)
    (generation_options : Options) (registry : StdMap.t) :
  expected_prefixes_path generation_options <> "-" ->
  (LoadExpectedPackagePrefixes fs (expected_prefixes_path generation_options) []).1
    = (registry, inl tt) ->
  (ValidateObjCClassPrefixes fs files generation_options).1 = Valid
  <-> Forall (passes generation_options registry) files.
Proof.
  intros Hdash%String.eqb_neq Hload. unfold ValidateObjCClassPrefixes.
  rewrite Hdash.
  destruct (LoadExpectedPackagePrefixes fs _ []) as [[m res] events].
  cbn in Hload. simplify_eq. split.
  - apply validate_files_valid.
  - apply validate_files_all_pass.
Qed.

(** X12 on the two files that share the prefix "ABC". *)
Lemma batch_valid_iff_each_file_witness :
  (ValidateObjCClassPrefixes Sample.fs [Sample.file_a; Sample.file_b]
     Sample.registry_options).1 = Valid
  <-> Forall (passes Sample.registry_options Sample.registry)
        [Sample.file_a; Sample.file_b].
Proof.
  apply (batch_valid_iff_each_file Sample.fs [Sample.file_a; Sample.file_b]
           Sample.registry_options Sample.registry).
  - discriminate.
  - vm_compute. reflexivity.
Defined.

(** X13: the files named in the suppressions take no part in the
    validation: a batch gives the verdict and the output of the batch
    without them. *)
Theorem suppressed_files_ignored (fs : FileSystem) (files : list FileDescriptor)
    (generation_options : Options) :
  ValidateObjCClassPrefixes fs files generation_options
  = ValidateObjCClassPrefixes fs
      (filter (λ f, name f ∉ expected_prefixes_suppressions generation_options) files)
      generation_options.
Proof.
  unfold ValidateObjCClassPrefixes.
  destruct (String.eqb _ "-"); [done|].
  destruct (LoadExpectedPackagePrefixes fs _ []) as [[m [[]|err]] events]; [|done].
  apply validate_files_filter.
Qed.

(** X14: with no registry path and prefixes not required, every batch is
    valid; no file is read and only warnings are printed. *)
Theorem unchecked_batch_valid (fs : FileSystem) (files : list FileDescriptor)
    (generation_options : Options) :
  expected_prefixes_path generation_options = "" ->
  require_prefixes generation_options = false ->
  (ValidateObjCClassPrefixes fs files generation_options).1 = Valid
  /\ Forall (λ e, exists line, e = Cerr line)
       (ValidateObjCClassPrefixes fs files generation_options).2.
Proof.
  intros Hpath Hrequire. unfold ValidateObjCClassPrefixes, LoadExpectedPackagePrefixes.
  rewrite Hpath. cbn. split.
  - apply validate_files_all_pass, Forall_forall. intros f _. right.
    by rewrite Hpath, Hrequire, ValidateObjCClassPrefix_unchecked.
  - apply validate_files_events; [constructor|]. intros f.
    rewrite Hpath, Hrequire, ValidateObjCClassPrefix_unchecked. cbn.
    destruct (has_objc_class_prefix (options f)); [|constructor].
    unfold style_warnings. apply Forall_app.
    split; case_match; repeat constructor; by eexists.
Qed.

(** X14 on a batch with a prefix of two lowercase letters. *)
Lemma unchecked_batch_valid_witness :
  (ValidateObjCClassPrefixes Sample.fs
     [Sample.file_a; mkFileDescriptor "d.proto" "pkg.d" (mkFileOptions (Some "ab"))]
     (mkOptions "" [] true false)).1 = Valid
  /\ Forall (λ e, exists line, e = Cerr line)
       (ValidateObjCClassPrefixes Sample.fs
          [Sample.file_a;
           mkFileDescriptor "d.proto" "pkg.d" (mkFileOptions (Some "ab"))]
          (mkOptions "" [] true false)).2.
Proof.
  apply (unchecked_batch_valid Sample.fs
           [Sample.file_a;
            mkFileDescriptor "d.proto" "pkg.d" (mkFileOptions (Some "ab"))]
           (mkOptions "" [] true false)); reflexivity.
Defined.

(** ** Lines of the registry *)

Section LineFacts.

Implicit Types (s t key value : string) (c : ascii).

Lemma find_first key value :
  all_chars (λ c, negb (Ascii.eqb c "=")) key = true ->
  StrView.find "=" (key +:+ "=" +:+ value) = Some (String.length key).
Proof.
  induction key as [|c key IH]; [done|]. cbn.
  intros [Hc Hkey]%andb_prop. rewrite append_cons. cbn.
  apply negb_true_iff in Hc. rewrite Hc, (IH Hkey). done.
Qed.

Lemma substring_append s t : String.substring 0 (String.length s) (s +:+ t) = s.
Proof.
  induction s as [|c s IH]; [by destruct t|].
  rewrite append_cons. cbn. by rewrite IH.
Qed.

Lemma drop_append_S s c t :
  StrView.drop (String.length s + 1) (s +:+ String c t) = t.
Proof.
  induction s as [|d s IH]; [done|]. rewrite append_cons. exact IH.
Qed.

Lemma plain_cases c :
  is_plain c = true ->
  Char.ascii_isspace c = false /\ Ascii.eqb c "=" = false
  /\ Ascii.eqb c "'" = false /\ Ascii.eqb c "034" = false.
Proof.
  unfold is_plain. rewrite !andb_true_iff, !negb_true_iff. tauto.
Qed.

Lemma plain_no_equal s :
  all_chars is_plain s = true ->
  all_chars (λ c, negb (Ascii.eqb c "=")) s = true.
Proof.
  apply all_chars_impl. intros c (_ & H & _)%plain_cases. by rewrite H.
Qed.

Lemma strip_leading_plain s t :
  all_chars is_plain s = true -> s <> "" ->
  StrView.strip_leading (s +:+ t) = s +:+ t.
Proof.
  destruct s as [|c s]; [done|]. cbn. intros [Hc _]%andb_prop _.
  apply plain_cases in Hc as (Hc & _). rewrite append_cons. cbn. by rewrite Hc.
Qed.

Lemma strip_trailing_plain s :
  all_chars is_plain s = true -> StrView.strip_trailing s = s.
Proof.
  induction s as [|c s IH]; [done|]. cbn. intros [Hc Hs]%andb_prop.
  apply plain_cases in Hc as (Hc & _). by rewrite (IH Hs), Hc, andb_false_r.
Qed.

Lemma strip_trailing_space s :
  all_chars is_plain s = true -> StrView.strip_trailing (s +:+ " ") = s.
Proof.
  induction s as [|c s IH]; [done|]. cbn. intros [Hc Hs]%andb_prop.
  apply plain_cases in Hc as (Hc & _). rewrite append_cons. cbn.
  by rewrite (IH Hs), Hc, andb_false_r.
Qed.

(** White space around plain text is stripped and nothing else. *)
Lemma Strip_plain_space s :
  all_chars is_plain s = true -> StrView.StripAsciiWhitespace (s +:+ " ") = s.
Proof.
  intros Hs. unfold StrView.StripAsciiWhitespace.
  destruct (decide (s = "")) as [-> | Hne]; [done|].
  by rewrite strip_leading_plain, strip_trailing_space.
Qed.

Lemma Strip_space_plain s :
  all_chars is_plain s = true ->
  StrView.StripAsciiWhitespace (String " " s) = s.
Proof.
  intros Hs. unfold StrView.StripAsciiWhitespace.
  change (StrView.strip_leading (String " " s)) with (StrView.strip_leading s).
  destruct (decide (s = "")) as [-> | Hne]; [done|].
  rewrite <- (append_empty_r s) at 1.
  by rewrite strip_leading_plain, append_empty_r, strip_trailing_plain.
Qed.

Lemma MaybeUnQuote_plain s :
  all_chars is_plain s = true -> StrView.MaybeUnQuote s = s.
Proof.
  intros Hs. unfold StrView.MaybeUnQuote.
  destruct s as [|c s]; [done|]. cbn in Hs. apply andb_prop in Hs as [Hc _].
  apply plain_cases in Hc as (_ & _ & Hq & Hd).
  change (Str.at_ (String c s) 0) with c. rewrite Hq, Hd.
  by rewrite andb_false_r.
Qed.

Lemma string_compare_refl s : String.compare s s = Eq.
Proof.
  induction s as [|c s IH]; [done|]. cbn.
  unfold Ascii.compare. by rewrite N.compare_refl.
Qed.

(** A key that is found again right after it was assigned. *)
Lemma find_assign (k v : string) (m : StdMap.t) :
  StdMap.find k (StdMap.assign k v m) = Some v.
Proof.
  induction m as [|[k' v'] m IH]; cbn.
  - by rewrite String.eqb_refl.
  - destruct (String.compare k k') eqn:Hcmp; cbn.
    + by rewrite String.eqb_refl.
    + by rewrite String.eqb_refl.
    + destruct (String.eqb_spec k k') as [-> | Hne]; [|exact IH].
      rewrite string_compare_refl in Hcmp. done.
Qed.

End LineFacts.

Lemma collector_accepts (usage_ key value : string) (prefix_map_ : StdMap.t) :
  all_chars (λ c, negb (Ascii.eqb c "=")) key = true ->
  PackageToPrefixesCollector usage_ (key +:+ "=" +:+ value) prefix_map_
  = (StdMap.assign (StrView.StripAsciiWhitespace key)
       (StrView.MaybeUnQuote (StrView.StripAsciiWhitespace value)) prefix_map_,
     inl tt).
Proof.
  intros Hkey. unfold PackageToPrefixesCollector.
  rewrite (find_first key value Hkey), substring_append.
  change ("=" +:+ value) with (String "=" value). by rewrite drop_append_S.
Qed.

(** X15: the first equal sign of a line is the delimiter.  For a key
    without an equal sign the collector registers the stripped key with
    the stripped and unquoted rest of the line, which may hold further
    equal signs, and accepts the line. *)
Theorem first_equal_sign_delimits (usage_ key value : string) (prefix_map_ : StdMap.t) :
  all_chars (λ c, negb (Ascii.eqb c "=")) key = true ->
  PackageToPrefixesCollector usage_ (key +:+ "=" +:+ value) prefix_map_
  = (StdMap.assign (StrView.StripAsciiWhitespace key)
       (StrView.MaybeUnQuote (StrView.StripAsciiWhitespace value)) prefix_map_,
     inl tt).
Proof. apply collector_accepts. Qed.

(** X15 on a line whose prefix is quoted and holds an equal sign. *)
Lemma first_equal_sign_delimits_witness :
  PackageToPrefixesCollector "Expected prefixes" ("a.b " +:+ "=" +:+ " 'X=Y'") []
  = (StdMap.assign (StrView.StripAsciiWhitespace "a.b ")
       (StrView.MaybeUnQuote (StrView.StripAsciiWhitespace " 'X=Y'")) [],
     inl tt).
Proof.
  apply (first_equal_sign_delimits "Expected prefixes" "a.b " " 'X=Y'" []).
  reflexivity.
Defined.

(** X16: the advice of the validation errors and warnings works.  For a
    file that declares a prefix, the line "KEY = PREFIX" they ask for
    (the empty prefix written as two double quotes), with a lookup key
    and a prefix free of white space, equal signs and quotes, is accepted
    by the collector of the registry, and against the registry with that
    line the file is valid and nothing is printed. *)
Theorem advised_line_registers (file : FileDescriptor) (prefix path : string)
    (registry : StdMap.t) (prefixes_must_be_registered require_prefixes : bool) :
  objc_class_prefix_field (options file) = Some prefix ->
  all_chars is_plain (lookup_key file) = true ->
  all_chars is_plain prefix = true ->
  exists registry',
    PackageToPrefixesCollector "Expected prefixes"
      (lookup_key file +:+ " = " +:+ prefix_or_quotes prefix) registry
    = (registry', inl tt)
    /\ StdMap.find (lookup_key file) registry' = Some prefix
    /\ ValidateObjCClassPrefix file path registry'
         prefixes_must_be_registered require_prefixes = (Valid, []).
Proof.
  intros Hopt Hkey Hprefix.
  exists (StdMap.assign (lookup_key file) prefix registry).
  assert (StrView.MaybeUnQuote
            (StrView.StripAsciiWhitespace (String " " (prefix_or_quotes prefix)))
          = prefix) as Hvalue.
  { unfold prefix_or_quotes. destruct prefix as [|c p]; [done|].
    cbn [Str.empty]. by rewrite Strip_space_plain, MaybeUnQuote_plain. }
  split; [|split].
  - replace (lookup_key file +:+ " = " +:+ prefix_or_quotes prefix)
      with ((lookup_key file +:+ " ") +:+ "="
            +:+ String " " (prefix_or_quotes prefix))
      by (by rewrite append_assoc).
    rewrite collector_accepts.
    + by rewrite Strip_plain_space, Hvalue.
    + rewrite all_chars_append, (plain_no_equal _ Hkey). done.
  - apply find_assign.
  - unfold ValidateObjCClassPrefix, has_objc_class_prefix, objc_class_prefix.
    rewrite find_assign, Hopt, bool_decide_eq_true_2 by done.
    cbn. by rewrite String.eqb_refl.
Qed.

(** X16 on the file that declares the empty prefix, which the registry
    does not list. *)
Lemma advised_line_registers_witness :
  exists registry',
    PackageToPrefixesCollector "Expected prefixes"
      (lookup_key Sample.explicit_empty +:+ " = " +:+ prefix_or_quotes "")
      Sample.registry
    = (registry', inl tt)
    /\ StdMap.find (lookup_key Sample.explicit_empty) registry' = Some ""
    /\ ValidateObjCClassPrefix Sample.explicit_empty "expected.txt" registry'
         true true = (Valid, []).
Proof.
  apply (advised_line_registers Sample.explicit_empty "" "expected.txt"
           Sample.registry true true); reflexivity.
Defined.

(** ** Class names *)

Section NameFacts.

Variable fs : FileSystem.
Variable kNSObjectMethodsList : list string.
Variable StripProto : string -> string.
Implicit Types (w : World) (file : FileDescriptor).

(** A second resolution right after the first gives the same prefix. *)
Lemma FileClassPrefix_again file w :
  (FileClassPrefix fs file (FileClassPrefix fs file w).2).1
  = (FileClassPrefix fs file w).1.
Proof.
  destruct (FileClassPrefix_run fs file w) as [-> Hsame].
  destruct (FileClassPrefix_run fs file (FileClassPrefix fs file w).2) as [-> _].
  by apply resolved_prefix_same_config.
Qed.

Lemma EnumName_run (descriptor : EnumDescriptor) w :
  EnumName fs kNSObjectMethodsList descriptor w
  = ((SanitizeNameForObjC kNSObjectMethodsList
        (FileClassPrefix fs (enum_file descriptor) w).1
        (EnumClassNameWorker descriptor) "_Enum").1,
     (FileClassPrefix fs (enum_file descriptor) w).2).
Proof. unfold EnumName. by rewrite bind_run. Qed.

Lemma EnumValueName_run (descriptor : EnumValueDescriptor) w :
  (EnumValueName fs kNSObjectMethodsList descriptor w).1
  = (SanitizeNameForObjC kNSObjectMethodsList ""
       ((EnumName fs kNSObjectMethodsList (value_type descriptor) w).1 +:+ "_"
        +:+ UnderscoresToCamelCase (value_name descriptor) true) "_Value").1.
Proof. unfold EnumValueName. by rewrite bind_run. Qed.

Lemma StripPrefix_append (front rest : string) :
  StrView.StripPrefix (front +:+ rest) front = rest.
Proof.
  unfold StrView.StripPrefix. by rewrite StartsWith_append, drop_append.
Qed.

Lemma lowercase_after_underscore (front rest : string) :
  lowercase_after_underscores (front +:+ "_" +:+ rest) = true ->
  Char.ascii_islower (Str.at_ rest 0) = true.
Proof.
  induction front as [|c front IH].
  - change ("" +:+ "_" +:+ rest) with (String "_" rest). cbn.
    by intros [H _]%andb_prop.
  - rewrite append_cons. cbn. intros [_ H]%andb_prop. by apply IH.
Qed.

End NameFacts.

(** X17: every class name carries the prefix of its file: the names of a
    message, of an enum and of the root class of a file start with the
    prefix that [FileClassPrefix] gives the file in the same state. *)
Theorem class_names_carry_prefix (fs : FileSystem)
    (kNSObjectMethodsList : list string) (StripProto : string -> string)
    (message : Descriptor) (enum : EnumDescriptor) (file : FileDescriptor)
    (w : World) :
  Str.StartsWith (ClassName fs kNSObjectMethodsList message w).1.1
    (FileClassPrefix fs (message_file message) w).1 = true
  /\ Str.StartsWith (EnumName fs kNSObjectMethodsList enum w).1
       (FileClassPrefix fs (enum_file enum) w).1 = true
  /\ Str.StartsWith (FileClassName fs kNSObjectMethodsList StripProto file w).1
       (FileClassPrefix fs file w).1 = true.
Proof.
  unfold ClassName, EnumName, FileClassName. rewrite !bind_run. cbn.
  repeat split; apply Sanitize_starts.
Qed.

(** X18: the short name of an enum value is what follows the enum name
    and an underscore in its full name: full name = enum name, "_",
    short name, all three taken in the same state, whatever the two
    resolutions of the prefix inside the short name read or load. *)
Theorem enum_value_names_agree (fs : FileSystem)
    (kNSObjectMethodsList : list string) (descriptor : EnumValueDescriptor)
    (w : World) :
  (EnumValueName fs kNSObjectMethodsList descriptor w).1
  = (EnumName fs kNSObjectMethodsList (value_type descriptor) w).1 +:+ "_"
    +:+ (EnumValueShortName fs kNSObjectMethodsList descriptor w).1.
Proof.
  unfold EnumValueShortName. rewrite !bind_run. cbn.
  rewrite !EnumValueName_run, !EnumName_run. cbn [fst snd].
  rewrite FileClassPrefix_again.
  set (class_name := (SanitizeNameForObjC kNSObjectMethodsList _ _ "_Enum").1).
  rewrite Sanitize_result.
  assert (sanitized "" (class_name +:+ "_"
                        +:+ UnderscoresToCamelCase (value_name descriptor) true)
          = class_name +:+ "_"
            +:+ UnderscoresToCamelCase (value_name descriptor) true) as ->
    by (apply sanitized_fixed; by left).
  assert (forall rest, StrView.StripPrefix (class_name +:+ "_" +:+ rest)
                         (class_name +:+ "_") = rest) as Hstrip.
  { intros rest. rewrite <- append_assoc. apply StripPrefix_append. }
  destruct (needs_extension _ _).
  - by rewrite !append_assoc, Hstrip.
  - by rewrite Hstrip.
Qed.

Section ReservedWordFacts.

Variable kNSObjectMethodsList : list string.

(** With a name that is no reserved word, the extension is appended for
    reserved C identifiers and inherited methods only. *)
Lemma Sanitize_unreserved (name extension : string) :
  name ∉ kReservedWords ->
  (SanitizeNameForObjC kNSObjectMethodsList "" name extension).1
  = if IsReservedCIdentifier name
       || bool_decide (name ∈ kNSObjectMethods kNSObjectMethodsList)
    then name +:+ extension else name.
Proof.
  intros Hname. rewrite Sanitize_result.
  assert (sanitized "" name = name) as -> by (apply sanitized_fixed; by left).
  unfold needs_extension. rewrite (bool_decide_eq_false_2 _ Hname).
  by rewrite orb_false_r.
Qed.

Lemma no_reserved_word_ends_in_Root :
  forallb (λ word, negb (EndsWith word "Root")) kReservedWordList = true.
Proof. vm_compute. reflexivity. Qed.

Lemma reserved_words_lowercase_after_underscores :
  forallb lowercase_after_underscores kReservedWordList = true.
Proof. vm_compute. reflexivity. Qed.

End ReservedWordFacts.

(** X19: no reserved word ends in "Root", so the name of the root class
    of a file, for every prefix and every file name, is never a reserved
    word: "_RootClass" is appended only to a reserved C identifier or an
    inherited method. *)
Theorem root_class_suffix (fs : FileSystem) (kNSObjectMethodsList : list string)
    (StripProto : string -> string) (file : FileDescriptor) (w : World) :
  let name :=
    sanitized (FileClassPrefix fs file w).1
      (UnderscoresToCamelCase (StripProto (BaseFileName file)) true +:+ "Root") in
  (name ∉ kReservedWords)
  /\ (FileClassName fs kNSObjectMethodsList StripProto file w).1
     = if IsReservedCIdentifier name
          || bool_decide (name ∈ kNSObjectMethods kNSObjectMethodsList)
       then name +:+ "_RootClass" else name.
Proof.
  intros name.
  assert (name ∉ kReservedWords) as Hname.
  { apply (not_in_words (λ word, negb (EndsWith word "Root")));
      [apply no_reserved_word_ends_in_Root|].
    subst name. destruct (sanitized_shape (FileClassPrefix fs file w).1
      (UnderscoresToCamelCase (StripProto (BaseFileName file)) true +:+ "Root"))
      as (front & _ & ->).
    by rewrite <- append_assoc, EndsWith_append. }
  split; [done|].
  unfold FileClassName. rewrite bind_run. cbn. fold name.
  unfold SanitizeNameForObjC, needs_extension. cbv zeta. fold name.
  rewrite (bool_decide_eq_false_2 _ Hname), orb_false_r.
  by destruct (_ || _).
Qed.

(** X20: in no reserved word is an underscore followed by anything but a
    lowercase letter, so the full name of an enum value, the enum name,
    an underscore and the capitalized value name, is never a reserved
    word: "_Value" is appended only to a reserved C identifier or an
    inherited method. *)
Theorem enum_value_suffix (fs : FileSystem) (kNSObjectMethodsList : list string)
    (descriptor : EnumValueDescriptor) (w : World) :
  let name :=
    (EnumName fs kNSObjectMethodsList (value_type descriptor) w).1 +:+ "_"
    +:+ UnderscoresToCamelCase (value_name descriptor) true in
  (name ∉ kReservedWords)
  /\ (EnumValueName fs kNSObjectMethodsList descriptor w).1
     = if IsReservedCIdentifier name
          || bool_decide (name ∈ kNSObjectMethods kNSObjectMethodsList)
       then name +:+ "_Value" else name.
Proof.
  intros name.
  assert (name ∉ kReservedWords) as Hname.
  { apply (not_in_words lowercase_after_underscores);
      [apply reserved_words_lowercase_after_underscores|].
    destruct (lowercase_after_underscores name) eqn:Hlow; [|done].
    apply lowercase_after_underscore in Hlow.
    unfold UnderscoresToCamelCase in Hlow. by rewrite join_capitalized in Hlow. }
  split; [done|].
  rewrite EnumValueName_run. fold name. by apply Sanitize_unreserved.
Qed.

(** ** Paths, special names and enum short names *)

Section PathFacts.

Implicit Types (s path name special rest : string).

Lemma rfind_split path :
  match Path.rfind "/" path with
  | None => all_chars (λ c, negb (Ascii.eqb c "/")) path = true
  | Some i =>
      path = String.substring 0 i path +:+ "/" +:+ StrView.drop (i + 1) path
      /\ all_chars (λ c, negb (Ascii.eqb c "/")) (StrView.drop (i + 1) path) = true
  end.
Proof.
  induction path as [|d path IH]; [done|]. cbn [Path.rfind].
  destruct (Path.rfind "/" path) as [i|].
  - destruct IH as [Hpath Hbase]. split; [|exact Hbase].
    cbn [String.substring Nat.add StrView.drop]. rewrite append_cons.
    by rewrite <- Hpath.
  - destruct (Ascii.eqb_spec d "/") as [-> | Hne].
    + split; [done | exact IH].
    + cbn. rewrite IH. apply Ascii.eqb_neq in Hne. by rewrite Hne.
Qed.

Lemma StartsWith_split name special :
  Str.StartsWith name special = true ->
  name = special +:+ StrView.drop (String.length special) name.
Proof.
  unfold Str.StartsWith. revert name.
  induction special as [|c special IH]; intros [|d name]; try done.
  cbn. destruct (ascii_dec c d) as [-> | ?]; [|done].
  intros H. rewrite append_cons. by rewrite <- (IH name H).
Qed.

(** What a match of the first special name decides. *)
Lemma IsSpecialNamePrefix_head special rest (others : list string) :
  IsSpecialNamePrefix (special +:+ rest) (special :: others)
  = negb (Char.ascii_islower (Str.at_ rest 0)).
Proof.
  cbn [IsSpecialNamePrefix]. rewrite StartsWith_append, length_append, at_append.
  case_bool_decide as Hlen; [done|].
  destruct rest as [|c rest]; [done | cbn in Hlen; lia].
Qed.

Lemma IsSpecialNamePrefix_skip name special (others : list string) :
  Str.StartsWith name special = false ->
  IsSpecialNamePrefix name (special :: others) = IsSpecialNamePrefix name others.
Proof. intros H. cbn [IsSpecialNamePrefix]. by rewrite H. Qed.

Lemma IsSpecialNamePrefix_true name (special_names : list string) :
  IsSpecialNamePrefix name special_names = true ->
  exists special rest,
    special ∈ special_names /\ name = special +:+ rest
    /\ Char.ascii_islower (Str.at_ rest 0) = false.
Proof.
  induction special_names as [|special others IH]; [done|]. cbn.
  destruct (Str.StartsWith name special) eqn:Hstart.
  - intros H. exists special, (StrView.drop (String.length special) name).
    split; [apply list_elem_of_here|].
    pose proof (StartsWith_split name special Hstart) as Hname.
    split; [done|].
    rewrite Hname, length_append, at_append in H.
    case_bool_decide as Hlen; [by apply negb_true_iff in H|].
    destruct (StrView.drop _ name) as [|c rest]; [done | cbn in Hlen; lia].
  - intros (s & rest & Hin & Hname & Hrest)%IH.
    exists s, rest. split; [by apply list_elem_of_further | done].
Qed.

End PathFacts.

(** X21: [PathSplit] loses nothing.  A path without a slash is its own
    basename, with an empty directory; any other path is the directory,
    a slash and the basename; and the basename never holds a slash. *)
Theorem PathSplit_joins (path : string) :
  let '(directory, basename) := Path.PathSplit path in
  all_chars (λ c, negb (Ascii.eqb c "/")) basename = true
  /\ ((directory = "" /\ basename = path)
      \/ path = directory +:+ "/" +:+ basename).
Proof.
  unfold Path.PathSplit. pose proof (rfind_split path) as H.
  destruct (Path.rfind "/" path) as [i|].
  - destruct H as [Hpath Hbase]. split; [done | by right].
  - split; [done | by left].
Qed.

(** X22: a name is a retained name exactly when it is "new", "alloc",
    "copy" or "mutableCopy" followed by nothing or by a character that is
    no lowercase letter; stopping at the first of the four that the name
    starts with hides no match. *)
Theorem IsRetainedName_iff (name : string) :
  IsRetainedName name = true
  <-> exists special rest,
        special ∈ retained_names /\ name = special +:+ rest
        /\ Char.ascii_islower (Str.at_ rest 0) = false.
Proof.
  split; [apply IsSpecialNamePrefix_true|].
  intros (special & rest & Hin & -> & Hrest).
  unfold IsRetainedName, retained_names in *.
  rewrite !elem_of_cons, elem_of_nil in Hin.
  destruct Hin as [-> | [-> | [-> | [-> | []]]]].
  - by rewrite (IsSpecialNamePrefix_head "new" rest), Hrest.
  - rewrite (IsSpecialNamePrefix_skip ("alloc" +:+ rest) "new")
      by (vm_compute; reflexivity).
    by rewrite (IsSpecialNamePrefix_head "alloc" rest), Hrest.
  - rewrite (IsSpecialNamePrefix_skip ("copy" +:+ rest) "new")
      by (vm_compute; reflexivity).
    rewrite (IsSpecialNamePrefix_skip ("copy" +:+ rest) "alloc")
      by (vm_compute; reflexivity).
    by rewrite (IsSpecialNamePrefix_head "copy" rest), Hrest.
  - rewrite (IsSpecialNamePrefix_skip ("mutableCopy" +:+ rest) "new")
      by (vm_compute; reflexivity).
    rewrite (IsSpecialNamePrefix_skip ("mutableCopy" +:+ rest) "alloc")
      by (vm_compute; reflexivity).
    rewrite (IsSpecialNamePrefix_skip ("mutableCopy" +:+ rest) "copy")
      by (vm_compute; reflexivity).
    by rewrite (IsSpecialNamePrefix_head "mutableCopy" rest), Hrest.
Qed.

Lemma uncamel_from_upper (i : nat) (name : string) :
  all_chars (λ c, negb (Char.ascii_islower c)) (uncamel_from i name) = true.
Proof.
  revert i. induction name as [|c name IH]; intros i; [done|]. cbn.
  rewrite all_chars_append. cbn. rewrite toupper_not_lower, IH. cbn.
  by destruct (bool_decide _ && _).
Qed.

(** X23: the upper-cased short name of an enum value holds no lowercase
    letter, whatever the name was. *)
Theorem UnCamelCaseEnumShortName_upper (name : string) :
  all_chars (λ c, negb (Char.ascii_islower c)) (UnCamelCaseEnumShortName name) = true.
Proof. apply uncamel_from_upper. Qed.

(** A name is an init name exactly when it is "init" followed by nothing
    or by a character that is no lowercase letter. *)
Lemma IsInitName_iff (name : string) :
  IsInitName name = true
  <-> exists rest,
        name = "init" +:+ rest /\ Char.ascii_islower (Str.at_ rest 0) = false.
Proof.
  split.
  - intros (special & rest & Hin & -> & Hrest)%IsSpecialNamePrefix_true.
    unfold init_names in Hin. rewrite elem_of_cons, elem_of_nil in Hin.
    destruct Hin as [-> | []]. by exists rest.
  - intros (rest & -> & Hrest). unfold IsInitName, init_names.
    by rewrite (IsSpecialNamePrefix_head "init" rest), Hrest.
Qed.

(** ** The prefix derived from a package *)

Section DerivedPrefix.

Implicit Types (result segment derived : string).

Lemma alnum_ident (c : ascii) : is_alnum c = true -> is_ident c = true.
Proof. unfold is_ident. by intros ->. Qed.

Lemma all_alnum_first (s : string) :
  all_chars is_alnum s = true -> s <> "" -> is_alnum (Str.at_ s 0) = true.
Proof. destruct s as [|c s]; [done|]. cbn. by intros [H _]%andb_prop _. Qed.

(** What the loop over the segments keeps: letters, digits and
    underscores, with a letter or a digit in front. *)
Lemma append_segment_shape result segment :
  all_chars is_ident result = true
  /\ (result = "" \/ is_alnum (Str.at_ result 0) = true) ->
  all_chars is_ident (append_segment result segment) = true
  /\ (append_segment result segment = ""
      \/ is_alnum (Str.at_ (append_segment result segment) 0) = true).
Proof.
  intros [Hall Hfirst]. unfold append_segment.
  pose proof (join_segments_alnum (segments segment) true (segments_ok segment))
    as Hpart. fold (UnderscoresToCamelCase segment true) in Hpart.
  destruct (UnderscoresToCamelCase segment true) as [|c part] eqn:Hcamel; [done|].
  cbn [Str.empty]. destruct result as [|d result]; cbn [Str.empty negb].
  - rewrite append_nil. split.
    + by apply (all_chars_impl is_alnum is_ident _ alnum_ident).
    + right. by apply all_alnum_first.
  - split.
    + apply (all_chars_impl is_alnum is_ident _ alnum_ident) in Hpart.
      by rewrite !all_chars_append, Hall, Hpart.
    + right. destruct Hfirst as [? | H]; [done | exact H].
Qed.

Lemma package_prefix_shape (package : string) :
  all_chars is_ident (package_prefix package) = true
  /\ (package_prefix package = ""
      \/ (is_alnum (Str.at_ (package_prefix package) 0) = true
          /\ EndsWith (package_prefix package) "_" = true)).
Proof.
  unfold package_prefix.
  destruct (fold_left_invariant append_segment
              (λ result, all_chars is_ident result = true
                         /\ (result = "" \/ is_alnum (Str.at_ result 0) = true))
              (λ _, True) (StrView.StrSplit_SkipEmpty package ".") "")
    as [Hall Hfirst].
  - split; [done | by left].
  - by apply Forall_forall.
  - intros result segment H _. by apply append_segment_shape.
  - cbv zeta.
    destruct (fold_left append_segment _ "") as [|c result]; cbn [Str.empty negb].
    + split; [done | by left].
    + split.
      * by rewrite all_chars_append, Hall.
      * right. split; [|apply EndsWith_append].
        destruct Hfirst as [? | H]; [done | exact H].
Qed.

End DerivedPrefix.

(** X24: the prefix derived from a package, whatever characters the
    package holds, is the forced prefix followed by a text of letters,
    digits and underscores that is empty or starts with a letter or a
    digit and ends with an underscore. *)
Theorem derived_prefix_shape (fs : FileSystem) (file : FileDescriptor) (w : World) :
  objc_class_prefix_field (options file) = None ->
  use_package_name_ (g_prefix_mode w) = true ->
  (prefix_from_proto_package_mappings fs (Some file) w).1 = "" ->
  (is_package_exempted fs (package file)
     (prefix_from_proto_package_mappings fs (Some file) w).2).1 = false ->
  exists derived,
    (FileClassPrefix fs file w).1 = forced_prefix_ (g_prefix_mode w) +:+ derived
    /\ all_chars is_ident derived = true
    /\ (derived = ""
        \/ (is_alnum (Str.at_ derived 0) = true /\ EndsWith derived "_" = true)).
Proof.
  intros Hopt Huse Hmap Hex. exists (package_prefix (package file)).
  split; [by rewrite FileClassPrefix_derived | apply package_prefix_shape].
Qed.

(** X24 on a package with dashes and empty segments. *)
Lemma derived_prefix_shape_witness :
  exists derived,
    (FileClassPrefix Sample.fs
       (mkFileDescriptor "odd.proto" "..my-pkg..v2." (mkFileOptions None))
       Sample.use_package).1
    = forced_prefix_ (g_prefix_mode Sample.use_package) +:+ derived
    /\ all_chars is_ident derived = true
    /\ (derived = ""
        \/ (is_alnum (Str.at_ derived 0) = true /\ EndsWith derived "_" = true)).
Proof.
  apply (derived_prefix_shape Sample.fs
           (mkFileDescriptor "odd.proto" "..my-pkg..v2." (mkFileOptions None))
           Sample.use_package); vm_compute; reflexivity.
Defined.

(** ** Field names *)

Section FieldFacts.

Implicit Types (s t x : string).

Lemma at_append_r s t (i : nat) :
  Str.at_ (s +:+ t) (String.length s + i) = Str.at_ t i.
Proof.
  unfold Str.at_. induction s as [|c s IH]; [done|]. rewrite append_cons. exact IH.
Qed.

Lemma drop_split (n : nat) t :
  n <= String.length t ->
  exists front, t = front +:+ StrView.drop n t /\ String.length front = n.
Proof.
  revert t. induction n as [|n IH]; intros t Hn.
  - by exists "".
  - destruct t as [|c t]; [cbn in Hn; lia|]. cbn in Hn.
    destruct (IH t) as (front & Ht & Hlen); [lia|].
    exists (String c front). rewrite append_cons. cbn. split; [|by rewrite Hlen].
    by rewrite <- Ht.
Qed.

Lemma EndsWith_split t s :
  EndsWith t s = true -> exists front, t = front +:+ s.
Proof.
  unfold EndsWith. intros [Hlen Heq]%andb_prop.
  apply bool_decide_eq_true_1 in Hlen. apply String.eqb_eq in Heq.
  destruct (drop_split (String.length t - String.length s) t) as (front & Ht & _);
    [lia|].
  exists front. by rewrite Heq in Ht.
Qed.

(** A name that ends in "_p" does not end in "Array". *)
Lemma p_suffix_not_Array x : EndsWith (x +:+ "_p") "Array" = false.
Proof.
  destruct (EndsWith (x +:+ "_p") "Array") eqn:Hends; [|done].
  apply EndsWith_split in Hends as [front Hfront].
  assert (Str.at_ (x +:+ "_p") (String.length x + 1)
          = Str.at_ (front +:+ "Array") (String.length front + 4)) as Hlast.
  { apply (f_equal String.length) in Hfront as Hlen.
    rewrite !length_append in Hlen. cbn in Hlen.
    replace (String.length x + 1) with (String.length front + 4) by lia.
    by rewrite Hfront. }
  rewrite !at_append_r in Hlast. done.
Qed.

End FieldFacts.

(** X25: a field name that ends in "Array" belongs to a repeated field
    that is no map: the name of any other field that would end in
    "Array" gets "_p" appended, and so does every name that needs the
    extension. *)
Theorem Array_names_are_repeated (kNSObjectMethodsList : list string)
    (field : FieldDescriptor) :
  EndsWith (FieldName kNSObjectMethodsList field) "Array" = true ->
  is_repeated field && negb (is_map field) = true.
Proof.
  unfold FieldName. destruct (is_repeated field && negb (is_map field)); [done|].
  rewrite Sanitize_result.
  set (result := if EndsWith _ "Array" then _ else _).
  assert (sanitized "" result = result) as -> by (apply sanitized_fixed; by left).
  destruct (needs_extension _ _); [by rewrite p_suffix_not_Array|].
  subst result.
  destruct (EndsWith (UnderscoresToCamelCase _ false) "Array") eqn:Hends;
    [by rewrite p_suffix_not_Array | by rewrite Hends].
Qed.

(** X25 on the repeated field "tags". *)
Lemma Array_names_are_repeated_witness :
  is_repeated DemoField.tags && negb (is_map DemoField.tags) = true.
Proof.
  apply (Array_names_are_repeated [] DemoField.tags). vm_compute. reflexivity.
Defined.

(** ** More of the validation *)

(** X26: for a file whose lookup key the registry lists, the registry
    alone decides: the file is valid, with nothing printed, exactly when
    it declares the registered prefix, and otherwise gets the error that
    states the expected prefix, whatever the two flags and the path
    are. *)
Theorem registered_key_decides (file : FileDescriptor) (path expected : string)
    (registry : StdMap.t) (prefixes_must_be_registered require_prefixes : bool) :
  StdMap.find (lookup_key file) registry = Some expected ->
  ValidateObjCClassPrefix file path registry
    prefixes_must_be_registered require_prefixes
  = if bool_decide (objc_class_prefix_field (options file) = Some expected)
    then (Valid, [])
    else (Invalid (mismatch_error file expected), []).
Proof.
  intros Hfind. unfold ValidateObjCClassPrefix, has_objc_class_prefix,
    objc_class_prefix. rewrite Hfind.
  destruct (objc_class_prefix_field (options file)) as [declared|]; cbn.
  - destruct (String.eqb_spec expected declared) as [-> | Hne].
    + by rewrite bool_decide_eq_true_2.
    + rewrite bool_decide_eq_false_2; [done|]. intros [= ->]. done.
  - by rewrite bool_decide_eq_false_2.
Qed.

(** X26 on a file of the registered package other.pkg that declares
    another prefix. *)
Lemma registered_key_decides_witness :
  ValidateObjCClassPrefix
    (mkFileDescriptor "o.proto" "other.pkg" (mkFileOptions (Some "ABC")))
    "expected.txt" Sample.registry false false
  = if bool_decide (Some "ABC" = Some "XYZ")
    then (Valid, [])
    else (Invalid
            (mismatch_error
               (mkFileDescriptor "o.proto" "other.pkg" (mkFileOptions (Some "ABC")))
               "XYZ"), []).
Proof.
  apply (registered_key_decides
           (mkFileDescriptor "o.proto" "other.pkg" (mkFileOptions (Some "ABC")))
           "expected.txt" "XYZ" Sample.registry false false).
  vm_compute. reflexivity.
Defined.

(** X27: a registry that cannot be loaded fails the whole batch: when
    the loader reports an error for the configured path (the file cannot
    be opened, or a line has no equal sign), the validation returns that
    error for every list of files, and no file is looked at. *)
Theorem unreadable_registry_fails (fs : FileSystem) (files : list FileDescriptor)
    (generation_options : Options) (error : string) :
  let path := expected_prefixes_path generation_options in
  path <> "-" ->
  path <> "" ->
  (ParseSimpleFile fs path (PackageToPrefixesCollector "Expected prefixes") []).2
    = inr error ->
  ValidateObjCClassPrefixes fs files generation_options
  = (Invalid error, [ReadFile path]).
Proof.
  intros path Hdash%String.eqb_neq Hpath%empty_false Hparse.
  unfold ValidateObjCClassPrefixes, LoadExpectedPackagePrefixes. fold path.
  rewrite Hdash, Hpath.
  destruct (ParseSimpleFile fs path _ []) as [m res]. cbn in Hparse. by subst res.
Qed.

(** X27 on a registry path that cannot be opened. *)
Lemma unreadable_registry_fails_witness :
  ValidateObjCClassPrefixes Sample.fs [Sample.file_a; Sample.file_b]
    (mkOptions "missing.txt" [] false false)
  = (Invalid "error: Unable to open missing.txt", [ReadFile "missing.txt"]).
Proof.
  apply (unreadable_registry_fails Sample.fs [Sample.file_a; Sample.file_b]
           (mkOptions "missing.txt" [] false false)
           "error: Unable to open missing.txt");
    [discriminate | discriminate | reflexivity].
Defined.
